(** * Blitztime TypeScript wrapper: clock, snapshot assembly, dispatcher

    A shallow embedding of [src/types.ts] and [src/socket.ts].

    - [Clock] embeds the getter and the methods that compute on a snapshot:
      [Timer.stageSettings], [TimerSide.totalTimeRemaining],
      [TimerSide.turnTimeRemaining] and [TimerSide.timesOutAt].  The fields
      have their declared types; integers are [Z], and the instants and
      durations of a snapshot are whole numbers of milliseconds, on which
      the arithmetic of the program is exact.  A payload may hold
      fractions of a millisecond, which the program adds and subtracts in
      binary64: there the sums and differences below are rounded, and the
      cases, the failures and the orderings are as proved.
    - [Wire] embeds the code that runs on payloads and on numbers:
      [loadDateTime], [loadOptionalDateTime], [loadDuration], the
      constructors of [Timer], [TimerSide] and [ApiError], and
      [StageSettings.load] and [dump].  The declared types are erased when
      this code runs, so a copied field holds any JavaScript value, and a
      number is an IEEE 754 binary64 value.
    - [Socket] embeds the listener registry of [TimerConnection], and
      [Handlers] the handlers that its constructor installs on the socket.
    - [Http] embeds [HttpClient] on top of its Axios client.

    Luxon and Axios are not part of the repository.  What the embedding
    takes from Luxon: an Interval whose end lies before its start is
    invalid and its [toDuration()] is an invalid Duration; [minus] returns
    an invalid receiver as it is and throws when it reads the units of an
    invalid argument; an invalid Duration or DateTime compares as [NaN]; a
    DateTime whose timestamp is not a time value of a [Date] is invalid,
    and [plus] returns an invalid receiver as it is;
    [DateTime.fromSeconds] throws on anything but a number, and
    [Duration.fromMillis] on [NaN].  From Axios: a client created without
    a [validateStatus] of its own resolves a request only with a response
    whose status is 0 or from 200 to 299, and rejects it otherwise. *)

From Stdlib Require Import ZArith QArith List Floats Lia Bool.
From stdpp Require Import base option list sorting gmap strings.

Local Open Scope Z_scope.
Local Set Warnings "-register-all".

(** ** Exceptions *)

(** What a [throw] carries: the engine's [TypeError], Luxon's
    [InvalidArgumentError], or [Error(msg)] thrown by the wrapper itself. *)
Inductive exn : Type :=
  | TypeError
  | InvalidArgumentError
  | Error (msg : string).

Inductive result (A : Type) : Type :=
  | Ok (a : A)
  | Throw (e : exn).
Arguments Ok {A} a.
Arguments Throw {A} e.

#[global] Instance result_ret : MRet result := fun A a => Ok a.
#[global] Instance result_bind : MBind result := fun A B k r =>
  match r with
  | Ok a => k a
  | Throw e => Throw e
  end.
#[global] Instance result_fmap : FMap result := fun A B f r =>
  match r with
  | Ok a => Ok (f a)
  | Throw e => Throw e
  end.

Definition throws {A} (r : result A) : Prop := ∃ e, r = Throw e.

(** ** The clock: [Timer], [TimerSide], [StageSettings] on a typed snapshot *)

Module Clock.

(** A valid Luxon [DateTime]: its timestamp, in milliseconds since the
    epoch.  Where the program may hold an invalid DateTime the model has an
    [option DateTime], [None] for an invalid one. *)
Definition DateTime : Type := Z.

(** A valid Luxon [Duration]: its length in milliseconds.  Every
    [Duration] stored in a snapshot comes from [Duration.fromMillis], which
    returns a valid one or throws. *)
Definition Duration : Type := Z.

(** [Number.MAX_SAFE_INTEGER] *)
Definition MAX_SAFE_INTEGER : Z := 2 ^ 53 - 1.

(** The largest time value of an ECMAScript [Date]: 8.64e15 ms. *)
Definition MAX_DATE : Z := 8640000000000000.

(** [new DateTime({ ts })], in a zone without offset.  The constructor
    reads the calendar fields of [new Date(ts)]; they are [NaN] when [ts]
    is not a time value of a [Date], and the DateTime is then invalid. *)
Definition DateTime_new (ts : Z) : option DateTime :=
  if (- MAX_DATE <=? ts) && (ts <=? MAX_DATE) then Some ts else None.

(** [DateTime.fromSeconds(seconds)] for an integer [seconds]:
    [new DateTime({ ts: seconds * 1000 })].  The product is rounded to
    binary64, which changes no product that is a time value of a [Date]
    (they lie below 2^53) and moves none across [MAX_DATE], a binary64
    number itself.  The offset of another zone shifts the bound by less
    than a day. *)
Definition DateTime_fromSeconds (seconds : Z) : option DateTime :=
  DateTime_new (seconds * 1000).

(** [this.plus(duration)] of a DateTime in a zone without offset, for a
    Duration of milliseconds: an invalid [this] is returned as it is. *)
Definition DateTime_plus (this : option DateTime) (duration : Duration)
  : option DateTime :=
  match this with
  | Some ts => DateTime_new (ts + duration)
  | None => None
  end.

(** [a < b] on DateTimes compares [valueOf()], which is [NaN] for an
    invalid DateTime. *)
Definition DateTime_ltb (a b : option DateTime) : bool :=
  match a, b with
  | Some x, Some y => x <? y
  | _, _ => false
  end.

(** [Interval.fromDateTimes(start, end).toDuration()].  Luxon makes the
    Interval invalid when [end] lies before [start], and [toDuration] of an
    invalid Interval is an invalid Duration ([None]). *)
Definition Interval_toDuration (start end_ : DateTime) : option Duration :=
  if end_ <? start then None else Some (end_ - start).

(** [this.minus(other)] of Luxon's [Duration]: an invalid [this] is
    returned as it is; otherwise the units of [other] are read, which throws
    a [TypeError] on an invalid [other]. *)
Definition Duration_minus (this other : option Duration)
  : result (option Duration) :=
  match this, other with
  | None, _ => Ok None
  | Some a, Some b => Ok (Some (a - b))
  | Some _, None => Throw TypeError
  end.

(** [a < b] on Durations compares [valueOf()], which is [NaN] for an
    invalid Duration; a comparison with [NaN] is false. *)
Definition Duration_ltb (a b : option Duration) : bool :=
  match a, b with
  | Some x, Some y => x <? y
  | _, _ => false
  end.

(** [UserPosition] *)
Inductive UserPosition : Type := OBSERVER | MANAGER | HOME | AWAY.

Definition UserPosition_value (p : UserPosition) : Z :=
  match p with
  | OBSERVER => -2
  | MANAGER => -1
  | HOME => 0
  | AWAY => 1
  end.

Record StageSettings : Type := {
  startTurn : Z;
  fixedTimePerTurn : Duration;
  incrementPerTurn : Duration;
  initialTime : Duration;
}.

(** [TimerSide]; its [timer] back-reference is passed to each method. *)
Record TimerSide : Type := {
  isTurn : bool;
  totalTimeLastTurn : Duration;
  connected : bool;
}.

Record Timer : Type := {
  id : Z;
  turnNumber : Z;
  turnStartedAt : option DateTime;
  startedAt : option DateTime;
  hasEnded : bool;
  endReporter : option UserPosition;
  home : option TimerSide;
  away : option TimerSide;
  settings : list StageSettings;
  observers : Z;
  managed : bool;
}.

(** [const turn = this.turnNumber >= 0 ? this.turnNumber / 2 : 0].  The
    division is the division of numbers, not of integers: an odd turn
    number gives a half.  Halving an integer is exact in binary64. *)
Definition turn (t : Timer) : Q :=
  if 0 <=? turnNumber t then inject_Z (turnNumber t) / 2 else 0.

(** [stage.startTurn <= turn] *)
Definition starts_by (turn : Q) (stage : StageSettings) : bool :=
  Qle_bool (inject_Z (startTurn stage)) turn.

(** [get stageSettings()]: the first stage of the reversed list that has
    started; the list is searched in the order it is stored. *)
Definition stageSettings (t : Timer) : result StageSettings :=
  match List.find (starts_by (turn t)) (rev (settings t)) with
  | Some stage => Ok stage
  | None => Throw (Error "Invalid settings detected: no first stage."%string)
  end.

(** [totalTimeRemaining()], with [DateTime.now()] as [now].  The value
    returned is a Luxon Duration, [None] when it is an invalid one. *)
Definition totalTimeRemaining (timer : Timer) (side : TimerSide)
    (now : DateTime) : result (option Duration) :=
  match turnStartedAt timer with
  | None => stage ← stageSettings timer; Ok (Some (initialTime stage))
  | Some started =>
    if negb (isTurn side) then Ok (Some (totalTimeLastTurn side))
    else
      let timeSpent := Interval_toDuration started now in
      stage ← stageSettings timer;
      timeSpent ← Duration_minus timeSpent (Some (fixedTimePerTurn stage));
      if Duration_ltb timeSpent (Some 0)
      then Ok (Some (totalTimeLastTurn side))
      else Duration_minus (Some (totalTimeLastTurn side)) timeSpent
  end.

(** [turnTimeRemaining()] *)
Definition turnTimeRemaining (timer : Timer) (side : TimerSide)
    (now : DateTime) : result (option Duration) :=
  match turnStartedAt timer with
  | Some started =>
    if isTurn side then
      let timeSpent := Interval_toDuration started now in
      stage ← stageSettings timer;
      timeRemaining ← Duration_minus (Some (fixedTimePerTurn stage)) timeSpent;
      if Duration_ltb (Some 0) timeRemaining then Ok timeRemaining
      else Ok (Some 0)
    else stage ← stageSettings timer; Ok (Some (fixedTimePerTurn stage))
  | None => stage ← stageSettings timer; Ok (Some (fixedTimePerTurn stage))
  end.

(** [timesOutAt()]; the instants of a snapshot are in UTC
    ([loadDateTime]), and [plus] keeps the zone. *)
Definition timesOutAt (timer : Timer) (side : TimerSide)
  : result (option DateTime) :=
  match turnStartedAt timer with
  | None => Ok (DateTime_fromSeconds MAX_SAFE_INTEGER)
  | Some started =>
    let banked := DateTime_plus (Some started) (totalTimeLastTurn side) in
    stage ← stageSettings timer;
    Ok (DateTime_plus banked (fixedTimePerTurn stage))
  end.

(** A timestamp that is a time value of a [Date]. *)
Definition time_value (ts : Z) : Prop := - MAX_DATE ≤ ts ≤ MAX_DATE.

(** The turn pair of the specification: [floor(turnNumber / 2)], and 0
    for a negative turn number. *)
Definition turnPair (t : Timer) : Z :=
  if 0 <=? turnNumber t then turnNumber t / 2 else 0.

(** A schedule stored by ascending [startTurn]. *)
Definition ascending (stages : list StageSettings) : Prop :=
  StronglySorted (λ a b, startTurn a ≤ startTurn b) stages.

(** A schedule with a first stage, one that starts at turn pair 0. *)
Definition has_first_stage (stages : list StageSettings) : Prop :=
  ∃ s, s ∈ stages ∧ startTurn s = 0.

(** [stage] is the stage of [t] with the largest [startTurn] at or below
    the turn pair. *)
Definition latest_started (t : Timer) (stage : StageSettings) : Prop :=
  stage ∈ settings t ∧ startTurn stage ≤ turnPair t ∧
  ∀ s, s ∈ settings t → startTurn s ≤ turnPair t →
       startTurn s ≤ startTurn stage.

(** The message of the failure the specification calls
    InvalidConfiguration. *)
Definition InvalidConfiguration : exn :=
  Error "Invalid settings detected: no first stage."%string.

End Clock.

(** ** Payloads: the code that runs on untyped values *)

Module Wire.

(** A JavaScript value as the transport delivers it: parsed JSON, or
    [undefined].  A number is a binary64 float. *)
Inductive value : Type :=
  | Undefined
  | Null
  | Bool (b : bool)
  | Num (n : float)
  | Str (s : string)
  | Arr (items : list value)
  | Obj (fields : list (string * value)).

(** The value stored under [key] in an object literal. *)
Fixpoint field (key : string) (fields : list (string * value)) : value :=
  match fields with
  | [] => Undefined
  | (k, v) :: rest => if String.eqb k key then v else field key rest
  end.

(** [data.key] for the keys of the wire format (none of them is a
    property of a primitive's or an array's prototype): a [TypeError] on
    [undefined] and [null], [undefined] where the key is missing. *)
Definition get (data : value) (key : string) : result value :=
  match data with
  | Undefined | Null => Throw TypeError
  | Obj fields => Ok (field key fields)
  | Bool _ | Num _ | Str _ | Arr _ => Ok Undefined
  end.

(** Truthiness, as tested by [cond ? a : b]. *)
Definition truthy (v : value) : bool :=
  match v with
  | Undefined | Null => false
  | Bool b => b
  | Num n => negb (PrimFloat.eqb n 0 || PrimFloat.is_nan n)
  | Str s => negb (String.eqb s EmptyString)
  | Arr _ | Obj _ => true
  end.

(** The number a string denotes (StringToNumber of ECMAScript), left
    open: the wrapper never builds a string itself. *)
Class StringToNumber : Type := string_to_number : string → float.

Section Payload.
Context {numeric : StringToNumber}.

(** ToNumber of ECMAScript, applied by [*] to its operands.  An array
    is first joined into a string: the empty array gives the empty
    string (0), a one-element array the string of its element, a
    longer one a string with a comma (NaN).  A plain object gives
    ["[object Object]"] (NaN). *)
Fixpoint ToNumber (v : value) : float :=
  match v with
  | Undefined => nan
  | Null => 0
  | Bool b => if b then 1 else 0
  | Num n => n
  | Str s => string_to_number s
  | Arr [] => 0
  | Arr [x] =>
    match x with
    | Undefined | Null => 0
    | Bool _ | Obj _ => nan
    | Num n => if PrimFloat.eqb n 0 then 0 else n
    | Str s => string_to_number s
    | Arr _ => ToNumber x
    end
  | Arr (_ :: _ :: _) => nan
  | Obj _ => nan
  end%float.

(** A Luxon [DateTime] built from a timestamp: its [ts] in
    milliseconds. *)
Definition DateTime : Type := float.

(** A valid Luxon [Duration] of milliseconds only: their number. *)
Definition Duration : Type := float.

(** [DateTime.fromSeconds(seconds)]: throws unless [typeof seconds] is
    ["number"]. *)
Definition DateTime_fromSeconds (seconds : value) : result DateTime :=
  match seconds with
  | Num n => Ok (n * 1000)%float
  | _ => Throw InvalidArgumentError
  end.

(** [Duration.fromMillis(count)]: throws on [NaN]. *)
Definition Duration_fromMillis (count : float) : result Duration :=
  if PrimFloat.is_nan count then Throw InvalidArgumentError else Ok count.

(** [duration.toMillis()] of a Duration that holds a whole number of
    milliseconds. *)
Definition Duration_toMillis (d : Duration) : float := d.

(** [loadDateTime]; [toUTC()] keeps the timestamp. *)
Definition loadDateTime (seconds : value) : result DateTime :=
  DateTime_fromSeconds seconds.

Definition loadOptionalDateTime (seconds : value)
  : result (option DateTime) :=
  match seconds with
  | Null => Ok None
  | _ => Some <$> loadDateTime seconds
  end.

Definition loadDuration (seconds : value) : result Duration :=
  Duration_fromMillis (ToNumber seconds * 1000)%float.

(** The fields of the classes hold whatever the payload held where the
    constructor copies it: the declared types are not checked. *)
Record StageSettings : Type := {
  startTurn : value;
  fixedTimePerTurn : Duration;
  incrementPerTurn : Duration;
  initialTime : Duration;
}.

Record TimerSide : Type := {
  isTurn : value;
  totalTimeLastTurn : Duration;
  connected : value;
}.

Record Timer : Type := {
  id : value;
  turnNumber : value;
  turnStartedAt : option DateTime;
  startedAt : option DateTime;
  hasEnded : value;
  endReporter : value;
  home : option TimerSide;
  away : option TimerSide;
  settings : list StageSettings;
  observers : value;
  managed : value;
}.

(** [StageSettings.load(data)] *)
Definition StageSettings_load (data : value) : result StageSettings :=
  start_turn ← get data "start_turn";
  seconds_fixed_per_turn ← get data "seconds_fixed_per_turn";
  fixed ← loadDuration seconds_fixed_per_turn;
  seconds_incremement_per_turn ← get data "seconds_incremement_per_turn";
  increment ← loadDuration seconds_incremement_per_turn;
  initial_seconds ← get data "initial_seconds";
  initial ← loadDuration initial_seconds;
  Ok {| startTurn := start_turn; fixedTimePerTurn := fixed;
        incrementPerTurn := increment; initialTime := initial |}.

(** [stage.dump()] *)
Definition StageSettings_dump (this : StageSettings) : value :=
  Obj [
    ("start_turn"%string, startTurn this);
    ("seconds_fixed_per_turn"%string,
      Num (Duration_toMillis (fixedTimePerTurn this) / 1000)%float);
    ("seconds_incremement_per_turn"%string,
      Num (Duration_toMillis (incrementPerTurn this) / 1000)%float);
    ("initial_seconds"%string,
      Num (Duration_toMillis (initialTime this) / 1000)%float)
  ].

(** [new TimerSide(data, timer)] *)
Definition TimerSide_new (data : value) : result TimerSide :=
  is_turn ← get data "is_turn";
  total_time ← get data "total_time";
  total ← loadDuration total_time;
  connected ← get data "connected";
  Ok {| isTurn := is_turn; totalTimeLastTurn := total;
        connected := connected |}.

(** [data.side ? new TimerSide(data.side, this) : null] *)
Definition optional_side (side : value) : result (option TimerSide) :=
  if truthy side then Some <$> TimerSide_new side else Ok None.

(** [data.settings.map(settings => StageSettings.load(settings))]:
    anything but an array has no callable [map]. *)
Definition map_settings (settings : value)
  : result (list StageSettings) :=
  match settings with
  | Arr items => mapM StageSettings_load items
  | _ => Throw TypeError
  end.

(** [new Timer(data)] *)
Definition Timer_new (data : value) : result Timer :=
  id ← get data "id";
  turn_number ← get data "turn_number";
  turn_started_at ← get data "turn_started_at";
  turnStartedAt ← loadOptionalDateTime turn_started_at;
  started_at ← get data "started_at";
  startedAt ← loadOptionalDateTime started_at;
  has_ended ← get data "has_ended";
  end_reporter ← get data "end_reporter";
  home ← get data "home";
  home ← optional_side home;
  away ← get data "away";
  away ← optional_side away;
  settings ← get data "settings";
  settings ← map_settings settings;
  observers ← get data "observers";
  managed ← get data "managed";
  Ok {| id := id; turnNumber := turn_number;
        turnStartedAt := turnStartedAt; startedAt := startedAt;
        hasEnded := has_ended; endReporter := end_reporter;
        home := home; away := away; settings := settings;
        observers := observers; managed := managed |}.

(** What [load] makes of the milliseconds that [dump] wrote as
    seconds: [(millis / 1000) * 1000]. *)
Definition reloaded (millis : float) : float :=
  (millis / 1000 * 1000)%float.

(** A duration that [dump] and [load] give back as it was: a number of
    milliseconds, not [NaN], that the two roundings leave alone. *)
Definition survives (d : Duration) : Prop :=
  PrimFloat.is_nan d = false ∧ reloaded d = d.

(** [Duration.fromMillis(count)] for an integer [count]. *)
Definition millis (count : Z) : Duration :=
  if count <? 0 then (- PrimFloat.of_uint63 (Uint63.of_Z (- count)))%float
  else PrimFloat.of_uint63 (Uint63.of_Z count).

(** A duration that is exact in milliseconds: a whole number of them, in
    the range where a number holds every integer. *)
Definition whole_milliseconds (d : Duration) : Prop :=
  ∃ count, - Clock.MAX_SAFE_INTEGER ≤ count ≤ Clock.MAX_SAFE_INTEGER
           ∧ d = millis count.

(** A Duration of [seconds] whole seconds. *)
Definition whole_seconds (seconds : Z) : Duration := millis (1000 * seconds).

(** [survives], decided. *)
Definition survivesb (d : Duration) : bool :=
  negb (PrimFloat.is_nan d) && PrimFloat.Leibniz.eqb (reloaded d) d.

(** Whether each of the [count] whole numbers of seconds from [first] on
    survives. *)
Fixpoint whole_seconds_survive (first : Z) (count : nat) : bool :=
  match count with
  | O => true
  | S count =>
    survivesb (whole_seconds first) && whole_seconds_survive (first + 1) count
  end.

(** [ApiError]; the message of the underlying [Error] is left out. *)
Record ApiError : Type := {
  code : value;
  detail : value;
}.

(** [new ApiError(detail, code = 400)]: the default applies to a
    missing or [undefined] argument. *)
Definition ApiError_new (detail code : value) : ApiError :=
  {| code := match code with Undefined => Num 400 | _ => code end;
     detail := detail |}.

End Payload.

End Wire.

(** ** The listener registry of [TimerConnection] *)

Module Socket.
Import Wire.

(** [EventName] *)
Inductive EventName : Type :=
  | connect
  | connect_error
  | disconnect
  | state_update
  | error.

#[global] Instance EventName_eq_dec : EqDecision EventName.
Proof. solve_decision. Defined.

Definition EventName_index (name : EventName) : nat :=
  match name with
  | connect => 0
  | connect_error => 1
  | disconnect => 2
  | state_update => 3
  | error => 4
  end%nat.

Definition EventName_at (i : nat) : EventName :=
  match i with
  | 0 => connect
  | 1 => connect_error
  | 2 => disconnect
  | 3 => state_update
  | _ => error
  end%nat.

#[global] Instance EventName_countable : Countable EventName.
Proof.
  apply (inj_countable' EventName_index EventName_at). intros []; reflexivity.
Defined.

(** A listener is a function object: [!==] compares its identity. *)
Definition Listener : Type := nat.

(** What a listener is called with: [{}] for the connection events, the
    new snapshot, or the error. *)
Inductive EventData : Type :=
  | NoData
  | Snapshot (state : Timer)
  | Failure (error : ApiError).

(** What a listener returns, as [Promise.all] takes it: a value that is
    not a promise, or a promise that is fulfilled in the end; a promise
    that is rejected in the end; a promise that never settles. *)
Inductive Returned : Type :=
  | WillFulfil
  | WillReject
  | NeverSettles.

(** How a call of a listener ends: it returns, or it throws. *)
Inductive Completion : Type :=
  | Returns (returned : Returned)
  | Throws.

(** What becomes of the promise of [_triggerEvent]. *)
Inductive Settled : Type := Fulfilled | Rejected | Pending.

Definition rejects (returned : Returned) : bool :=
  match returned with
  | WillReject => true
  | WillFulfil | NeverSettles => false
  end.

Definition never_settles (returned : Returned) : bool :=
  match returned with
  | NeverSettles => true
  | WillFulfil | WillReject => false
  end.

(** [Promise.all(promises)]: rejected as soon as one of them is, fulfilled
    once all of them are, and pending for ever otherwise. *)
Definition Promise_all (promises : list Returned) : Settled :=
  if existsb rejects promises then Rejected
  else if existsb never_settles promises then Pending
  else Fulfilled.

(** The fields of [TimerConnection] next to the socket itself. *)
Record TimerConnection : Type := {
  state : option Timer;
  observer : bool;
  listeners : gmap EventName (list Listener);
}.

(** [new TimerConnection(credentials, apiUrl)]: the connection is an
    observer's when [credentials.token] is missing or empty. *)
Definition TimerConnection_new (token : option string) : TimerConnection :=
  {| state := None;
     observer := match token with
                 | Some t => String.eqb t EmptyString
                 | None => true
                 end;
     listeners := ∅ |}.

(** [this.listeners.get(name) || []] *)
Definition registered (this : TimerConnection) (name : EventName)
  : list Listener :=
  default [] (listeners this !! name).

(** [addListener(event, listener)] *)
Definition addListener (this : TimerConnection) (event : EventName)
    (listener : Listener) : TimerConnection :=
  match listeners this !! event with
  | Some eventListeners =>
    {| state := state this; observer := observer this;
       listeners := <[event := eventListeners ++ [listener]]> (listeners this) |}
  | None =>
    {| state := state this; observer := observer this;
       listeners := <[event := [listener]]> (listeners this) |}
  end.

(** [removeListener(event, listener)] *)
Definition removeListener (this : TimerConnection) (event : EventName)
    (listener : Listener) : TimerConnection :=
  match listeners this !! event with
  | Some eventListeners =>
    {| state := state this; observer := observer this;
       listeners := <[event := filter (λ item, item ≠ listener) eventListeners]>
                      (listeners this) |}
  | None => this
  end.

Section Dispatch.
(** What each listener does when called, as far as the dispatcher sees
    it; what a listener does to the registry while it runs is not
    followed. *)
Variable call : Listener → EventData → Completion.

(** [array.map(listener => listener(data))]: the calls made, in order,
    and what the listeners returned, or [None] when a call threw, which
    ends the [map]. *)
Fixpoint map_call (array : list Listener) (data : EventData)
  : list (Listener * EventData) * option (list Returned) :=
  match array with
  | [] => ([], Some [])
  | listener :: rest =>
    match call listener data with
    | Throws => ([(listener, data)], None)
    | Returns returned =>
      let '(calls, promises) := map_call rest data in
      ((listener, data) :: calls, cons returned <$> promises)
    end
  end.

(** [_triggerEvent(name, data)]: the calls made and what becomes of the
    promise returned.  A throw inside [map] rejects the promise of the
    [async] function before [Promise.all] is reached. *)
Definition _triggerEvent (this : TimerConnection) (name : EventName)
    (data : EventData) : list (Listener * EventData) * Settled :=
  let '(calls, promises) := map_call (registered this name) data in
  (calls,
   match promises with
   | Some promises => Promise_all promises
   | None => Rejected
   end).

Context {numeric : StringToNumber}.


(** [_onError(rawError)] *)
Definition _onError (this : TimerConnection) (rawError : value)
  : result (list (Listener * EventData) * Settled) :=
  detail ← get rawError "detail";
  let error := ApiError_new detail Undefined in
  Ok (_triggerEvent this Socket.error (Failure error)).

End Dispatch.

(** The calls of [listener] among [calls]. *)
Definition calls_of (listener : Listener)
    (calls : list (Listener * EventData)) : list (Listener * EventData) :=
  filter (λ c, c.1 = listener) calls.

End Socket.

(** ** Example snapshots *)

Module Examples.
Import Clock.

Definition stage (start fixed increment initial : Z) : StageSettings :=
  {| startTurn := start; fixedTimePerTurn := fixed;
     incrementPerTurn := increment; initialTime := initial |}.

Definition snapshot (n : Z) (started : option DateTime)
    (stages : list StageSettings) : Timer :=
  {| id := 139; turnNumber := n; turnStartedAt := started;
     startedAt := started; hasEnded := false; endReporter := None;
     home := None; away := None; settings := stages;
     observers := 0; managed := false |}.

Definition side (active : bool) (bank : Duration) : TimerSide :=
  {| isTurn := active; totalTimeLastTurn := bank; connected := true |}.

(** The two stages of the README: 30 s increment from turn pair 0, then
    60 s per turn from turn pair 10. *)
Definition blitz : StageSettings := stage 0 0 30000 300000.
Definition slow : StageSettings := stage 10 60000 0 600000.

(** A one-stage schedule whose only stage starts at turn pair 1. *)
Definition late : StageSettings := stage 1 0 0 300000.

(** A stage with a negative allotment per turn. *)
Definition owing : StageSettings := stage 0 (-5000) 0 300000.

(** The README schedule at turn 21, and the same two stages stored latest
    first at turn 30. *)
Definition readme_timer : Timer := snapshot 21 None [blitz; slow].
Definition latest_first_timer : Timer := snapshot 30 None [slow; blitz].

(** The README schedule at turn 19. *)
Definition turn19_timer : Timer := snapshot 19 None [blitz; slow].

(** A schedule without a first stage, at turn 2. *)
Definition late_timer : Timer := snapshot 2 None [late].

(** The README schedule before the first turn has started. *)
Definition fresh_timer : Timer := snapshot 0 None [blitz; slow].

(** The README schedule before the game, at a negative turn number. *)
Definition early_timer : Timer := snapshot (-1) None [blitz; slow].

(** Turn 0 started at instant 1000000; the home side is to move with
    300 s in the bank. *)
Definition running_timer : Timer := snapshot 0 (Some 1000000) [blitz; slow].
Definition mover : TimerSide := side true 300000.
Definition waiter : TimerSide := side false 280000.

(** Turn pair 10 (60 s per turn) started at instant 1000000. *)
Definition slow_timer : Timer := snapshot 21 (Some 1000000) [blitz; slow].

(** A snapshot whose only stage has a negative allotment per turn. *)
Definition owing_timer : Timer := snapshot 0 None [owing].

End Examples.

(** ** Example payloads and connections *)

Module Payloads.
Import Wire Socket.

(** No string is read as a number in the examples. *)
Definition no_numeric_strings : StringToNumber := λ _, nan.

Definition stage_payload (start fixed increment initial : float) : value :=
  Obj [ ("start_turn"%string, Num start);
        ("seconds_fixed_per_turn"%string, Num fixed);
        ("seconds_incremement_per_turn"%string, Num increment);
        ("initial_seconds"%string, Num initial) ].

Definition side_payload (active : bool) (seconds : float) : value :=
  Obj [ ("is_turn"%string, Bool active);
        ("total_time"%string, Num seconds);
        ("connected"%string, Bool true) ].

(** The fields of a snapshot after [id]. *)
Definition snapshot_fields : list (string * value) :=
  [ ("turn_number"%string, Num 0);
    ("turn_started_at"%string, Null);
    ("started_at"%string, Null);
    ("has_ended"%string, Bool false);
    ("end_reporter"%string, Null);
    ("home"%string, side_payload true 300);
    ("away"%string, Null);
    ("settings"%string, Arr [stage_payload 0 0 30 300]);
    ("observers"%string, Num 0);
    ("managed"%string, Bool false) ].

Definition snapshot_payload : value :=
  Obj (("id"%string, Num 139) :: snapshot_fields).

(** The same snapshot without its [id]. *)
Definition anonymous_payload : value := Obj snapshot_fields.

(** What [new Timer] makes of [anonymous_payload]. *)
Definition anonymous_timer : Timer :=
  {| id := Undefined; turnNumber := Num 0;
     turnStartedAt := None; startedAt := None;
     hasEnded := Bool false; endReporter := Null;
     home := Some {| isTurn := Bool true; totalTimeLastTurn := 300000%float;
                     connected := Bool true |};
     away := None;
     settings := [ {| startTurn := Num 0; fixedTimePerTurn := 0%float;
                      incrementPerTurn := 30000%float;
                      initialTime := 300000%float |} ];
     observers := Num 0; managed := Bool false |}.

(** An error payload that carries a code of its own. *)
Definition forbidden : value :=
  Obj [ ("detail"%string, Str "Not your turn"); ("code"%string, Num 403) ].

(** The README stage, and one whose allotment per turn is 1001 ms. *)
Definition readme_stage : StageSettings :=
  {| startTurn := Num 0; fixedTimePerTurn := whole_seconds 0;
     incrementPerTurn := whole_seconds 30;
     initialTime := whole_seconds 300 |}.

Definition odd_stage : StageSettings :=
  {| startTurn := Num 0; fixedTimePerTurn := 1001%float;
     incrementPerTurn := 0%float; initialTime := 300000%float |}.

(** A fresh observer connection, and one with listeners 1 and 2 added,
    in this order, for [state_update]. *)
Definition fresh : TimerConnection := TimerConnection_new None.

Definition two_listeners : TimerConnection :=
  addListener (addListener fresh state_update 1%nat) state_update 2%nat.

(** Listener 1 throws; every other listener returns. *)
Definition first_throws (listener : Listener) (data : EventData)
  : Completion :=
  if Nat.eqb listener 1 then Throws else Returns WillFulfil.

(** Every listener returns. *)
Definition all_return (listener : Listener) (data : EventData)
  : Completion :=
  Returns WillFulfil.

(** Listener 7 added behind listener 1, and listener 7 added twice, for
    [state_update]. *)
Definition behind_first : TimerConnection :=
  addListener (addListener fresh state_update 1%nat) state_update 7%nat.

Definition added_twice : TimerConnection :=
  addListener (addListener fresh state_update 7%nat) state_update 7%nat.

(** Listener 2 returns a promise that never settles; every other listener
    returns. *)
Definition second_hangs (listener : Listener) (data : EventData)
  : Completion :=
  if Nat.eqb listener 2 then Returns NeverSettles else Returns WillFulfil.

End Payloads.

(** ** The HTTP client: [HttpClient] and its Axios client *)

Module Http.
Import Wire.

(** What a rejected promise carries: the [ApiError] that [_request]
    throws, what the engine or Luxon threw, or the error of the Axios
    client. *)
Inductive rejection : Type :=
  | Api (error : ApiError)
  | Native (e : exn)
  | AxiosError.

(** A promise that has settled. *)
Inductive promise (A : Type) : Type :=
  | Resolves (a : A)
  | Rejects (r : rejection).
Arguments Resolves {A} a.
Arguments Rejects {A} r.

(** The promise of an [async] body that ran to [r]. *)
Definition settle {A} (r : result A) : promise A :=
  match r with
  | Ok a => Resolves a
  | Throw e => Rejects (Native e)
  end.

(** [await promise; rest]: a rejection ends the [async] function. *)
Definition await {A B} (p : promise A) (rest : A → promise B) : promise B :=
  match p with
  | Resolves a => rest a
  | Rejects r => Rejects r
  end.

(** The two fields that the client reads of an Axios response; the status
    of an HTTP response is an integer. *)
Record Response : Type := {
  status : Z;
  data : value;
}.

(** What comes back for a request: nothing (no connection, a timeout), or
    a response. *)
Inductive Answer : Type :=
  | NoResponse
  | Responds (response : Response).

(** The [validateStatus] of an Axios client that was given none, as the
    one made by [axios.create({ baseURL: apiUrl })]. *)
Definition validateStatus (status : Z) : bool :=
  (200 <=? status) && (status <? 300).

(** [this.client.request(config)]: Axios resolves the request with the
    response when [!response.status || validateStatus(response.status)],
    and rejects it with its own error otherwise. *)
Definition client_request (answer : Answer) : promise Response :=
  match answer with
  | NoResponse => Rejects AxiosError
  | Responds response =>
    if (status response =? 0) || validateStatus (status response)
    then Resolves response
    else Rejects AxiosError
  end.

(** The number that holds the integer [status]. *)
Definition status_number (status : Z) : value := Num (millis status).

(** [_request(method, endpoint, body)] *)
Definition _request (answer : Answer) : promise value :=
  await (client_request answer) (λ response,
    if 400 <=? status response then
      match get (data response) "detail" with
      | Ok detail =>
        Rejects (Api (ApiError_new detail (status_number (status response))))
      | Throw e => Rejects (Native e)
      end
    else Resolves (data response)).

(** [AppStats] *)
Record AppStats : Type := {
  allTimers : value;
  ongoingTimers : value;
  connected : value;
}.

(** [new AppStats(data)] *)
Definition AppStats_new (data : value) : result AppStats :=
  all_timers ← get data "all_timers";
  ongoing_timers ← get data "ongoing_timers";
  connected ← get data "connected";
  Ok {| allTimers := all_timers; ongoingTimers := ongoing_timers;
        connected := connected |}.

(** [SocketCredentials], as the client builds them from a response. *)
Record SocketCredentials : Type := {
  timer : value;
  token : value;
}.

(** [{ timer: response.timer, token: response.token }] *)
Definition credentials (response : value) : result SocketCredentials :=
  timer ← get response "timer";
  token ← get response "token";
  Ok {| timer := timer; token := token |}.

(** [getStats()] *)
Definition getStats (answer : Answer) : promise AppStats :=
  await (_request answer) (λ response, settle (AppStats_new response)).

Section Endpoints.
Context {numeric : StringToNumber}.

(** [getTimer(id)] *)
Definition getTimer (answer : Answer) : promise Timer :=
  await (_request answer) (λ response, settle (Timer_new response)).

End Endpoints.

(** [joinTimer(id, side)] *)
Definition joinTimer (answer : Answer) : promise SocketCredentials :=
  await (_request answer) (λ response, settle (credentials response)).

(** The body that [createTimer(settings, asManager)] posts. *)
Definition createTimer_body (settings : list StageSettings)
    (asManager : bool) : value :=
  let rawSettings := StageSettings_dump <$> settings in
  Obj [ ("stages"%string, Arr rawSettings);
        ("as_manager"%string, Bool asManager) ].

(** [createTimer(settings, asManager)] *)
Definition createTimer (answer : Answer) : promise SocketCredentials :=
  await (_request answer) (λ response, settle (credentials response)).

(** A status with which the Axios client resolves a request. *)
Definition accepted (status : Z) : Prop := status = 0 ∨ 200 ≤ status < 300.

End Http.

(** ** The inbound events of [TimerConnection] *)

Module Handlers.
Import Wire Socket.



Section Installed.
Variable call : Listener → EventData → Completion.
Context {numeric : StringToNumber}.


End Installed.

End Handlers.

(** ** Whole seconds on the wire *)

Module WholeSeconds.
Import Wire.

(** Whether [dump] writes [seconds] whole seconds as the integer
    [seconds], and [loadDuration] reads that integer back as [seconds]
    whole seconds. *)
Definition on_the_wire (seconds : Z) : bool :=
  PrimFloat.Leibniz.eqb (Duration_toMillis (whole_seconds seconds) / 1000)
                        (millis seconds)
  && PrimFloat.Leibniz.eqb (millis seconds * 1000) (whole_seconds seconds)
  && negb (PrimFloat.is_nan (whole_seconds seconds)).

(** [on_the_wire] for each of the [count] numbers of seconds from [first]
    on. *)
Fixpoint all_on_the_wire (first : Z) (count : nat) : bool :=
  match count with
  | O => true
  | S count => on_the_wire first && all_on_the_wire (first + 1) count
  end.

End WholeSeconds.

(** ** Further examples *)

Module MoreExamples.
Import Clock.

(** The README schedule at turns 20 and 21, the two turns of pair 10. *)
Definition turn20_timer : Timer := Examples.snapshot 20 None
  [Examples.blitz; Examples.slow].

(** Turn pair 10 started at instant 1000000 with 60 s per turn; the side to
    move has 300 s in the bank. *)
Definition pair10_timer : Timer := Examples.slow_timer.

(** A started snapshot without any stage. *)
Definition empty_timer : Timer := Examples.snapshot 0 (Some 1000000) [].

(** An error answer with a body, and one without. *)
Definition not_found : Http.Response :=
  {| Http.status := 404;
     Http.data := Wire.Obj [("detail"%string, Wire.Str "Timer not found.")] |}.

Definition bad_gateway : Http.Response :=
  {| Http.status := 502; Http.data := Wire.Null |}.

(** A successful answer to [getStats] that lacks [connected]. *)
Definition usage : Http.Response :=
  {| Http.status := 200;
     Http.data := Wire.Obj [("all_timers"%string, Wire.Num 12);
                            ("ongoing_timers"%string, Wire.Num 3)] |}.

(** The instant one millisecond before [turnStartedAt] of
    [Examples.running_timer]. *)
Definition too_early : DateTime := 999999.

End MoreExamples.

(** * Properties *)

Import Clock.

(** ** Stage resolution *)

Lemma starts_by_turnPair (t : Timer) (s : StageSettings) :
  starts_by (turn t) s = true ↔ startTurn s ≤ turnPair t.
Proof.
  unfold starts_by, turn, turnPair.
  rewrite Qle_bool_iff.
  destruct (0 <=? turnNumber t) eqn:Hn.
  - unfold Qle, Qdiv, Qmult, Qinv, inject_Z; simpl.
    apply Z.leb_le in Hn. split; intros H.
    + apply Z.div_le_lower_bound; lia.
    + assert (2 * (turnNumber t / 2) ≤ turnNumber t)
        by (apply Z.mul_div_le; lia).
      lia.
  - unfold Qle, inject_Z; simpl. lia.
Qed.

Lemma find_rev_cons {A} (p : A → bool) (a : A) (l : list A) :
  List.find p (rev (a :: l)) =
  match List.find p (rev l) with
  | Some x => Some x
  | None => if p a then Some a else None
  end.
Proof.
  simpl. generalize (rev l) as r. intros r.
  induction r as [|b r IH]; simpl; [reflexivity|].
  destruct (p b); [reflexivity | exact IH].
Qed.

(** The search returns the last stage, in storage order, that has started. *)
Lemma find_rev_last {A} (p : A → bool) (l : list A) (x : A) :
  List.find p (rev l) = Some x →
  ∃ before after, l = before ++ x :: after ∧ p x = true
                  ∧ Forall (λ y, p y = false) after.
Proof.
  revert x. induction l as [|a l IH]; intros x; [discriminate|].
  rewrite find_rev_cons.
  destruct (List.find p (rev l)) as [x'|] eqn:Hf.
  - intros [= <-]. destruct (IH x' eq_refl) as (b & c & -> & Hp & Hc).
    exists (a :: b), c. auto.
  - destruct (p a) eqn:Hpa; [|discriminate]. intros [= <-].
    exists [], l. repeat split; [assumption|].
    apply Forall_forall. intros y Hy.
    apply (List.find_none _ _ Hf). rewrite <- in_rev.
    apply list_elem_of_In, Hy.
Qed.

Lemma stageSettings_Ok (t : Timer) (stage : StageSettings) :
  stageSettings t = Ok stage →
  ∃ before after, settings t = (before ++ stage :: after)%list
                  ∧ startTurn stage ≤ turnPair t
                  ∧ Forall (λ s, turnPair t < startTurn s) after.
Proof.
  unfold stageSettings.
  destruct (List.find _ _) as [x|] eqn:Hf; [|discriminate].
  intros [= <-].
  destruct (find_rev_last _ _ _ Hf) as (b & a & Hl & Hx & Ha).
  exists b, a. split; [assumption|]. split.
  - apply starts_by_turnPair, Hx.
  - eapply Forall_impl; [exact Ha|]. intros s Hs; simpl in Hs.
    destruct (Z_lt_le_dec (turnPair t) (startTurn s)) as [|Hle]; [assumption|].
    apply starts_by_turnPair in Hle. congruence.
Qed.

Lemma stageSettings_Throw (t : Timer) (e : exn) :
  stageSettings t = Throw e →
  e = InvalidConfiguration ∧ Forall (λ s, turnPair t < startTurn s) (settings t).
Proof.
  unfold stageSettings.
  destruct (List.find _ _) as [x|] eqn:Hf; [discriminate|].
  intros [= <-]. split; [reflexivity|].
  apply Forall_forall. intros s Hs.
  destruct (Z_lt_le_dec (turnPair t) (startTurn s)) as [|Hle]; [assumption|].
  apply starts_by_turnPair in Hle.
  rewrite (List.find_none _ _ Hf) in Hle; [discriminate|].
  rewrite <- in_rev. apply list_elem_of_In, Hs.
Qed.

Lemma stageSettings_started (t : Timer) (s : StageSettings) :
  s ∈ settings t → startTurn s ≤ turnPair t →
  ∃ stage, stageSettings t = Ok stage.
Proof.
  intros Hs Hle. destruct (stageSettings t) as [stage|e] eqn:Hr; [eauto|].
  apply stageSettings_Throw in Hr as [_ Hall].
  rewrite Forall_forall in Hall. specialize (Hall s Hs). lia.
Qed.

Lemma turnPair_nonneg (t : Timer) : 0 ≤ turnPair t.
Proof.
  unfold turnPair. destruct (0 <=? turnNumber t) eqn:Hn; [|lia].
  apply Z.leb_le in Hn. apply Z.div_pos; lia.
Qed.

(** C1 (as amended).  For a schedule stored by ascending [startTurn] that
    has a stage with [startTurn = 0], and a non-negative turn number,
    [stageSettings] returns a stage, and that stage has the largest
    [startTurn] at or below [floor(turnNumber / 2)] among all stages. *)
Theorem stageSettings_ascending (t : Timer) :
  ascending (settings t) →
  has_first_stage (settings t) →
  0 ≤ turnNumber t →
  ∃ stage, stageSettings t = Ok stage ∧ latest_started t stage
           ∧ turnPair t = turnNumber t / 2.
Proof.
  intros Hsorted (s0 & Hs0 & Hzero) Hn.
  destruct (stageSettings_started t s0 Hs0) as [stage Hr].
  { rewrite Hzero. apply turnPair_nonneg. }
  exists stage. split; [assumption|].
  destruct (stageSettings_Ok _ _ Hr) as (b & a & Hl & Hle & Ha).
  split; [|unfold turnPair; apply Z.leb_le in Hn; rewrite Hn; reflexivity].
  split; [rewrite Hl; set_solver|]. split; [assumption|].
  intros s Hs Hsle. unfold ascending in Hsorted. rewrite Hl in Hs, Hsorted.
  apply elem_of_app in Hs as [Hs|Hs].
  - eapply (StronglySorted_app_1_elem_of _ _ _ s stage Hsorted); set_solver.
  - apply elem_of_cons in Hs as [->|Hs]; [lia|].
    rewrite Forall_forall in Ha. specialize (Ha s Hs). lia.
Qed.

Lemma stageSettings_ascending_witness :
  ∃ stage, stageSettings Examples.readme_timer = Ok stage
           ∧ latest_started Examples.readme_timer stage
           ∧ turnPair Examples.readme_timer = 21 / 2.
Proof.
  apply (stageSettings_ascending Examples.readme_timer).
  - repeat constructor; simpl; lia.
  - exists Examples.blitz. split; [set_solver | reflexivity].
  - simpl. lia.
Defined.

(** C1, the counterexample.  The two README stages stored latest first,
    at turn 30 (turn pair 15): the schedule has a first stage and distinct
    [startTurn] values, yet [stageSettings] returns the stage starting at 0
    although the stage starting at 10 has started. *)
Lemma stageSettings_latest_first :
  has_first_stage (settings Examples.latest_first_timer)
  ∧ NoDup (startTurn <$> settings Examples.latest_first_timer)
  ∧ 0 ≤ turnNumber Examples.latest_first_timer
  ∧ stageSettings Examples.latest_first_timer = Ok Examples.blitz
  ∧ ¬ latest_started Examples.latest_first_timer Examples.blitz.
Proof.
  split; [exists Examples.blitz; split; [set_solver | reflexivity]|].
  split; [simpl; apply NoDup_cons; split;
          [rewrite list_elem_of_singleton; lia | apply NoDup_singleton]|].
  split; [simpl; lia|]. split; [reflexivity|].
  intros (_ & _ & Hmax).
  specialize (Hmax Examples.slow). simpl in Hmax.
  assert (10 ≤ 0); [|lia].
  apply Hmax; [set_solver | vm_compute; discriminate].
Qed.

(** C5 (as amended).  [stageSettings] fails exactly when every stage starts
    after the turn pair, and then with the "no first stage" error; a
    schedule that has a stage with [startTurn = 0] never fails, whatever the
    turn number. *)
Theorem stageSettings_fails_iff (t : Timer) :
  (stageSettings t = Throw InvalidConfiguration
   ↔ Forall (λ s, turnPair t < startTurn s) (settings t))
  ∧ (∀ e, stageSettings t = Throw e → e = InvalidConfiguration)
  ∧ (has_first_stage (settings t) → ∃ stage, stageSettings t = Ok stage).
Proof.
  split; [split|split].
  - intros H. apply (stageSettings_Throw _ _ H).
  - intros Hall. destruct (stageSettings t) as [stage|e] eqn:Hr.
    + destruct (stageSettings_Ok _ _ Hr) as (b & a & Hl & Hle & _).
      rewrite Forall_forall in Hall.
      assert (turnPair t < startTurn stage); [|lia].
      apply Hall. rewrite Hl. set_solver.
    + apply stageSettings_Throw in Hr as [-> _]. reflexivity.
  - intros e H. apply (stageSettings_Throw _ _ H).
  - intros (s0 & Hs0 & Hzero). apply (stageSettings_started t s0 Hs0).
    rewrite Hzero. apply turnPair_nonneg.
Qed.

Lemma stageSettings_fails_iff_witness :
  ∃ stage, stageSettings Examples.early_timer = Ok stage.
Proof.
  apply (stageSettings_fails_iff Examples.early_timer).
  exists Examples.blitz. split; [set_solver | reflexivity].
Defined.

(** C5, the counterexample.  A schedule whose only stage starts at turn
    pair 1 has no stage with [startTurn = 0], and resolution succeeds at
    turn 2. *)
Lemma stageSettings_without_first_stage :
  ¬ has_first_stage (settings Examples.late_timer)
  ∧ stageSettings Examples.late_timer = Ok Examples.late.
Proof.
  split; [|reflexivity].
  intros (s & Hs & Hzero). simpl in Hs.
  apply list_elem_of_singleton in Hs. subst s. discriminate Hzero.
Qed.

(** ** Derived clock quantities *)

(** Bank time remaining, from [turnStartedAt] on: the resolved stage's
    [initialTime] when the timer has not started; [totalTimeLastTurn],
    whatever [now] is, for a started timer and the side not to move; and for
    the side to move at an instant [now] not before [turnStartedAt], with
    [overage = (now - turnStartedAt) - fixedTimePerTurn]:
    [totalTimeLastTurn] when [overage <= 0] and
    [totalTimeLastTurn - overage], not clamped, otherwise. *)
Lemma totalTimeRemaining_cases (timer : Timer) (side : TimerSide)
    (now : DateTime) :
  (∀ stage, turnStartedAt timer = None → stageSettings timer = Ok stage →
     totalTimeRemaining timer side now = Ok (Some (initialTime stage)))
  ∧ (∀ started, turnStartedAt timer = Some started → isTurn side = false →
     totalTimeRemaining timer side now = Ok (Some (totalTimeLastTurn side)))
  ∧ (∀ started stage,
     turnStartedAt timer = Some started → isTurn side = true →
     stageSettings timer = Ok stage → started ≤ now →
     let overage := (now - started) - fixedTimePerTurn stage in
     (overage ≤ 0 →
      totalTimeRemaining timer side now = Ok (Some (totalTimeLastTurn side)))
     ∧ (0 < overage →
        totalTimeRemaining timer side now
        = Ok (Some (totalTimeLastTurn side - overage)))).
Proof.
  unfold totalTimeRemaining. split; [|split].
  - intros stage -> ->. reflexivity.
  - intros started -> ->. reflexivity.
  - intros started stage -> -> -> Hle. cbv zeta. simpl.
    set (overage := now - started - fixedTimePerTurn stage).
    unfold Interval_toDuration.
    destruct (now <? started) eqn:Hlt; [apply Z.ltb_lt in Hlt; lia|]. simpl.
    fold overage. destruct (overage <? 0) eqn:Hneg.
    + apply Z.ltb_lt in Hneg. split; [reflexivity | lia].
    + apply Z.ltb_ge in Hneg. split; [|reflexivity].
      intros Hzero. do 2 f_equal. lia.
Qed.

(** At turn 0 of the README schedule (no allotment per turn), 10 s after the
    turn started, the side to move has 290 s of its 300 s left and the other
    side keeps its 280 s; before the start both have the initial 300 s; with
    60 s per turn the bank is untouched after 10 s. *)
Lemma totalTimeRemaining_cases_witness :
  totalTimeRemaining Examples.fresh_timer Examples.mover 1010000
  = Ok (Some 300000)
  ∧ totalTimeRemaining Examples.running_timer Examples.waiter 1010000
    = Ok (Some 280000)
  ∧ totalTimeRemaining Examples.running_timer Examples.mover 1010000
    = Ok (Some (300000 - 10000))
  ∧ totalTimeRemaining Examples.slow_timer Examples.mover 1010000
    = Ok (Some 300000).
Proof.
  split; [|split; [|split]].
  - destruct (totalTimeRemaining_cases Examples.fresh_timer Examples.mover
                1010000) as (Hbefore & _ & _).
    apply (Hbefore Examples.blitz); reflexivity.
  - destruct (totalTimeRemaining_cases Examples.running_timer Examples.waiter
                1010000) as (_ & Hwaits & _).
    apply (Hwaits 1000000); reflexivity.
  - destruct (totalTimeRemaining_cases Examples.running_timer Examples.mover
                1010000) as (_ & _ & Hmoves).
    apply (Hmoves 1000000 Examples.blitz); simpl; try reflexivity; lia.
  - destruct (totalTimeRemaining_cases Examples.slow_timer Examples.mover
                1010000) as (_ & _ & Hmoves).
    apply (Hmoves 1000000 Examples.slow); simpl; try reflexivity; lia.
Defined.

(** C2.  Where [totalTimeRemaining()] departs from the bank-remaining rule:
    for the side to move at an instant [now] before [turnStartedAt].  The
    elapsed time is negative there, so with a non-negative allotment per
    turn the overage is negative and the rule gives [totalTimeLastTurn]
    unchanged; the method tests [timeSpent < 0] for that case, but the
    Interval from [turnStartedAt] to [now] is invalid and the call throws a
    [TypeError], for every snapshot.  The same side gets
    [totalTimeLastTurn] at [turnStartedAt] itself, and so does a side with
    the same bank that is not to move, at [now]. *)
Theorem totalTimeRemaining_before_turn_start (timer : Timer)
    (side : TimerSide) (now started : DateTime) (stage : StageSettings) :
  turnStartedAt timer = Some started → isTurn side = true →
  stageSettings timer = Ok stage → 0 ≤ fixedTimePerTurn stage →
  now < started →
  (now - started) - fixedTimePerTurn stage ≤ 0
  ∧ totalTimeRemaining timer side now = Throw TypeError
  ∧ totalTimeRemaining timer side started
    = Ok (Some (totalTimeLastTurn side))
  ∧ totalTimeRemaining timer
      {| isTurn := false; totalTimeLastTurn := totalTimeLastTurn side;
         connected := connected side |} now
    = Ok (Some (totalTimeLastTurn side)).
Proof.
  intros Hstarted Hturn Hstage Hfixed Hnow. split; [lia|].
  unfold totalTimeRemaining. rewrite Hstarted, Hturn, Hstage. simpl.
  unfold Interval_toDuration.
  apply Z.ltb_lt in Hnow as Hlt. rewrite Hlt, Z.ltb_irrefl. simpl.
  split; [reflexivity|]. split; [|reflexivity].
  replace (started - started - fixedTimePerTurn stage)
    with (- fixedTimePerTurn stage) by lia.
  destruct (- fixedTimePerTurn stage <? 0) eqn:Hneg; [reflexivity|].
  apply Z.ltb_ge in Hneg. do 2 f_equal. lia.
Qed.

(** Turn 0 of the README schedule started at instant 1000000, and the side
    to move, with 300 s in the bank, asks one millisecond earlier. *)
Lemma totalTimeRemaining_before_turn_start_witness :
  (MoreExamples.too_early - 1000000) - fixedTimePerTurn Examples.blitz ≤ 0
  ∧ totalTimeRemaining Examples.running_timer Examples.mover
      MoreExamples.too_early
    = Throw TypeError
  ∧ totalTimeRemaining Examples.running_timer Examples.mover 1000000
    = Ok (Some 300000)
  ∧ totalTimeRemaining Examples.running_timer
      {| isTurn := false; totalTimeLastTurn := 300000; connected := true |}
      MoreExamples.too_early
    = Ok (Some 300000).
Proof.
  apply (totalTimeRemaining_before_turn_start Examples.running_timer
           Examples.mover MoreExamples.too_early 1000000 Examples.blitz);
    first [reflexivity | simpl; lia | vm_compute; reflexivity].
Defined.

(** C3 (as amended).  For a stage with a non-negative [fixedTimePerTurn],
    and [now] not before [turnStartedAt] when the side is to move, the
    turn-allotment time remaining is a valid duration that is never negative:
    the full [fixedTimePerTurn] when the timer has not started or the side
    is not to move, and otherwise [fixedTimePerTurn - (now - turnStartedAt)]
    while that is positive and zero once the elapsed time reaches
    [fixedTimePerTurn]. *)
Theorem turnTimeRemaining_cases (timer : Timer) (side : TimerSide)
    (now : DateTime) (stage : StageSettings) :
  stageSettings timer = Ok stage →
  0 ≤ fixedTimePerTurn stage →
  (∀ started, turnStartedAt timer = Some started → isTurn side = true →
     started ≤ now) →
  ∃ r, turnTimeRemaining timer side now = Ok (Some r) ∧ 0 ≤ r ∧
    match turnStartedAt timer with
    | Some started =>
      if isTurn side then
        let elapsed := now - started in
        (0 < fixedTimePerTurn stage - elapsed →
           r = fixedTimePerTurn stage - elapsed)
        ∧ (fixedTimePerTurn stage ≤ elapsed → r = 0)
      else r = fixedTimePerTurn stage
    | None => r = fixedTimePerTurn stage
    end.
Proof.
  intros Hstage Hfixed Hnow. unfold turnTimeRemaining. rewrite Hstage.
  destruct (turnStartedAt timer) as [started|]; [|simpl; eauto].
  destruct (isTurn side); [|simpl; eauto].
  specialize (Hnow started eq_refl eq_refl). simpl.
  unfold Interval_toDuration.
  destruct (now <? started) eqn:Hlt; [apply Z.ltb_lt in Hlt; lia|]. simpl.
  destruct (0 <? fixedTimePerTurn stage - (now - started)) eqn:Hpos.
  - apply Z.ltb_lt in Hpos. eexists. split; [reflexivity|].
    split; [lia|]. split; [reflexivity | lia].
  - apply Z.ltb_ge in Hpos. exists 0. split; [reflexivity|].
    split; [lia|]. split; [lia | reflexivity].
Qed.

(** With 60 s per turn, 10 s into the turn 50 s of the allotment are left. *)
Lemma turnTimeRemaining_cases_witness :
  ∃ r, turnTimeRemaining Examples.slow_timer Examples.mover 1010000
       = Ok (Some r) ∧ 0 ≤ r ∧
       ((0 < 60000 - (1010000 - 1000000) → r = 60000 - (1010000 - 1000000))
        ∧ (60000 ≤ 1010000 - 1000000 → r = 0)).
Proof.
  apply (turnTimeRemaining_cases Examples.slow_timer Examples.mover 1010000
           Examples.slow).
  - reflexivity.
  - simpl. lia.
  - intros started [= <-] _. lia.
Defined.

(** C3, the counterexamples.  A stage with a negative allotment per turn
    gives a negative result to a side that is not to move; and for the side
    to move, one millisecond before [turnStartedAt], the call throws instead
    of returning [fixedTimePerTurn - (now - turnStartedAt)]. *)
Lemma turnTimeRemaining_negative_or_throws :
  (stageSettings Examples.owing_timer = Ok Examples.owing
   ∧ turnTimeRemaining Examples.owing_timer Examples.waiter 1010000
     = Ok (Some (-5000)))
  ∧ (stageSettings Examples.running_timer = Ok Examples.blitz
     ∧ turnTimeRemaining Examples.running_timer Examples.mover 999999
       = Throw TypeError).
Proof. repeat split; reflexivity. Qed.

(** In a zone without offset, [DateTime.fromSeconds] gives a valid
    DateTime, of [seconds * 1000] milliseconds, for the numbers of seconds
    up to 8.64e12 and for no other. *)
Lemma DateTime_fromSeconds_valid (seconds : Z) (instant : DateTime) :
  DateTime_fromSeconds seconds = Some instant
  ↔ instant = seconds * 1000 ∧ - 8640000000000 ≤ seconds ≤ 8640000000000.
Proof.
  unfold DateTime_fromSeconds, DateTime_new, MAX_DATE.
  destruct (_ <=? seconds * 1000) eqn:Hlow,
           (seconds * 1000 <=? _) eqn:Hhigh; simpl;
    rewrite ?Z.leb_le, ?Z.leb_gt in Hlow, Hhigh;
    split; first [intros [= <-]; lia | intros [-> H]; f_equal; lia
                 | discriminate | intros [_ H]; lia].
Qed.

(** C4.  Before the timer has started, [timesOutAt()] is not the maximum
    representable instant, nor any instant.  For every snapshot and side
    it is [DateTime.fromSeconds(Number.MAX_SAFE_INTEGER)]; [fromSeconds]
    gives a valid DateTime for the numbers of seconds up to 8.64e12 only
    (in a zone without offset), the largest of which is the instant of the
    largest time value of a [Date], and [Number.MAX_SAFE_INTEGER] is about
    a thousand times beyond them: the result is an invalid DateTime, and
    no instant compares before it or after it.  Once
    the timer has started, at a valid [turnStartedAt], the timeout instant
    is [turnStartedAt + totalTimeLastTurn + fixedTimePerTurn] of the
    resolved stage, when the two sums are time values of a [Date], and an
    invalid DateTime when one of them is not. *)
Theorem timesOutAt_cases (timer : Timer) (side : TimerSide) :
  (turnStartedAt timer = None →
     timesOutAt timer side = Ok None
     ∧ (∀ seconds instant,
          DateTime_fromSeconds seconds = Some instant
          ↔ instant = seconds * 1000
            ∧ - 8640000000000 ≤ seconds ≤ 8640000000000)
     ∧ DateTime_fromSeconds 8640000000000 = Some MAX_DATE
     ∧ 8640000000000 < MAX_SAFE_INTEGER
     ∧ ∀ out, timesOutAt timer side = Ok out →
         out ≠ Some MAX_DATE
         ∧ ∀ now, DateTime_ltb (Some now) out = false
                  ∧ DateTime_ltb out (Some now) = false)
  ∧ (∀ started stage,
     turnStartedAt timer = Some started → time_value started →
     stageSettings timer = Ok stage →
     let banked := started + totalTimeLastTurn side in
     (time_value banked → time_value (banked + fixedTimePerTurn stage) →
        timesOutAt timer side = Ok (Some (banked + fixedTimePerTurn stage)))
     ∧ (¬ (time_value banked ∧ time_value (banked + fixedTimePerTurn stage)) →
        timesOutAt timer side = Ok None)).
Proof.
  unfold timesOutAt. split.
  - intros ->.
    assert (Hnever : DateTime_fromSeconds MAX_SAFE_INTEGER = None)
      by reflexivity.
    rewrite Hnever. split; [reflexivity|].
    split; [apply DateTime_fromSeconds_valid|].
    split; [reflexivity|]. split; [reflexivity|].
    intros out [= <-]. split; [discriminate|].
    intros now. split; reflexivity.
  - intros started stage -> _ ->. cbv zeta. simpl.
    unfold DateTime_plus, DateTime_new, time_value.
    set (banked := started + totalTimeLastTurn side).
    destruct (- MAX_DATE <=? banked) eqn:H1, (banked <=? MAX_DATE) eqn:H2;
      simpl;
      rewrite ?Z.leb_le, ?Z.leb_gt in H1, H2;
      try (split; [intros; lia | reflexivity]).
    destruct (- MAX_DATE <=? banked + fixedTimePerTurn stage) eqn:H3,
             (banked + fixedTimePerTurn stage <=? MAX_DATE) eqn:H4;
      simpl;
      rewrite ?Z.leb_le, ?Z.leb_gt in H3, H4;
      split; first [reflexivity | intros; lia].
Qed.

(** The README snapshot before its first turn: the side's timeout instant
    is invalid.  Started at T with 300 s in the bank and no allotment per
    turn, the side times out at T + 300 s. *)
Lemma timesOutAt_cases_witness :
  timesOutAt Examples.fresh_timer Examples.mover = Ok None
  ∧ timesOutAt Examples.running_timer Examples.mover
    = Ok (Some (1000000 + 300000 + 0)).
Proof.
  split.
  - destruct (timesOutAt_cases Examples.fresh_timer Examples.mover)
      as (Hbefore & _).
    apply Hbefore. reflexivity.
  - destruct (timesOutAt_cases Examples.running_timer Examples.mover)
      as (_ & Hstarted).
    apply (Hstarted 1000000 Examples.blitz);
      first [reflexivity | vm_compute; split; discriminate].
Defined.

(** ** The scenarios of the specification *)

(** Stage [{startTurn: 0, fixedTimePerTurn: 0 s, incrementPerTurn: 30 s,
    initialTime: 300 s}], turn pair 0, the side to move has 300 s in the
    bank and its turn started at T: at T + 10 s the bank holds 290 s, the
    allotment is used up, and the side times out at T + 300 s. *)
Lemma scenario_ten_seconds_in :
  totalTimeRemaining Examples.running_timer Examples.mover (1000000 + 10000)
  = Ok (Some 290000)
  ∧ turnTimeRemaining Examples.running_timer Examples.mover (1000000 + 10000)
    = Ok (Some 0)
  ∧ timesOutAt Examples.running_timer Examples.mover
    = Ok (Some (1000000 + 300000)).
Proof. repeat split; reflexivity. Qed.

(** With the two README stages, turn 21 (turn pair 10) resolves to the
    second stage and turn 19 (turn pair 9) to the first. *)
Lemma scenario_two_stages :
  stageSettings Examples.readme_timer = Ok Examples.slow
  ∧ stageSettings Examples.turn19_timer = Ok Examples.blitz.
Proof. split; reflexivity. Qed.

(** ** The event dispatcher *)

Import Socket.

Lemma registered_addListener (this : TimerConnection) (name : EventName)
    (f : Listener) :
  registered (addListener this name f) name = registered this name ++ [f].
Proof.
  unfold registered, addListener.
  destruct (listeners this !! name) as [ls|] eqn:Hls; simpl;
    rewrite lookup_insert_eq; reflexivity.
Qed.

Lemma registered_removeListener (this : TimerConnection) (name : EventName)
    (f : Listener) :
  registered (removeListener this name f) name
  = filter (λ item, item ≠ f) (registered this name).
Proof.
  unfold registered, removeListener.
  destruct (listeners this !! name) as [ls|] eqn:Hls; simpl.
  - rewrite lookup_insert_eq. reflexivity.
  - rewrite Hls. reflexivity.
Qed.

Lemma filter_absent (f : Listener) (ls : list Listener) :
  f ∉ ls → filter (λ item, item ≠ f) ls = ls.
Proof.
  induction ls as [|l ls IH]; intros Hf; [reflexivity|].
  apply not_elem_of_cons in Hf as [Hne Hf].
  rewrite filter_cons_True by congruence. rewrite IH by assumption.
  reflexivity.
Qed.

Section MapCall.
Variable call : Listener → EventData → Completion.
Variable data : EventData.

(** Every call made is a call of a registered listener, with [data]. *)
Lemma map_call_sound (ls : list Listener) :
  Forall (λ c, c.1 ∈ ls ∧ c.2 = data) (map_call call ls data).1.
Proof.
  induction ls as [|l ls IH]; simpl; [constructor|].
  destruct (call l data) as [rejected|]; simpl.
  - destruct (map_call call ls data) as [calls promises]; simpl in *.
    constructor; [split; [left | reflexivity]|].
    eapply Forall_impl; [exact IH|]. intros c [Hc Hd]. split; [|assumption].
    right. assumption.
  - constructor; [|constructor]. split; [left | reflexivity].
Qed.

(** Listeners that do not throw are all called, in order. *)
Lemma map_call_returns (ls : list Listener) :
  (∀ l, l ∈ ls → call l data ≠ Throws) →
  ∃ promises,
    map_call call ls data = ((λ l, (l, data)) <$> ls, Some promises).
Proof.
  induction ls as [|l ls IH]; intros Hret; simpl; [eauto|].
  destruct (call l data) as [rejected|] eqn:Hl.
  - destruct IH as [promises ->]; [intros; apply Hret; by right|].
    simpl. eauto.
  - exfalso. apply (Hret l); [by left | assumption].
Qed.

(** The first listener that throws ends the calls. *)
Lemma map_call_throws (before after : list Listener) (l : Listener) :
  (∀ b, b ∈ before → call b data ≠ Throws) →
  call l data = Throws →
  map_call call (before ++ l :: after) data
  = ((λ l, (l, data)) <$> before ++ [l], None).
Proof.
  induction before as [|b before IH]; intros Hret Hl; simpl.
  - rewrite Hl. reflexivity.
  - destruct (call b data) as [rejected|] eqn:Hb.
    + rewrite IH; [reflexivity | | assumption].
      intros; apply Hret; by right.
    + exfalso. apply (Hret b); [by left | assumption].
Qed.

(** A listener registered last, after listeners that do not throw, is
    called whatever it does itself. *)
Lemma map_call_last (ls : list Listener) (f : Listener) :
  (∀ l, l ∈ ls → call l data ≠ Throws) →
  (map_call call (ls ++ [f]) data).1 = (λ l, (l, data)) <$> ls ++ [f].
Proof.
  intros Hret. destruct (call f data) as [rejected|] eqn:Hf.
  - destruct (map_call_returns (ls ++ [f])) as [promises ->]; [|reflexivity].
    intros l [Hl| ->%list_elem_of_singleton]%elem_of_app;
      [by apply Hret | congruence].
  - rewrite (map_call_throws ls [] f Hret Hf). reflexivity.
Qed.
End MapCall.

(** C6 (as amended).  Firing an event calls the registered listeners with
    the payload in registration order, up to and including the first one
    that throws: when none throws (a listener may still return a promise
    that rejects) every listener is called, and when one throws the
    listeners registered after it are not called and the promise of the
    firing rejects. *)
Theorem _triggerEvent_calls (call : Listener → EventData → Completion)
    (this : TimerConnection) (name : EventName) (data : EventData) :
  ((∀ l, l ∈ registered this name → call l data ≠ Throws) →
     (_triggerEvent call this name data).1
     = (λ l, (l, data)) <$> registered this name)
  ∧ (∀ before l after,
     registered this name = before ++ l :: after →
     (∀ b, b ∈ before → call b data ≠ Throws) →
     call l data = Throws →
     _triggerEvent call this name data
     = ((λ l, (l, data)) <$> before ++ [l], Rejected)).
Proof.
  unfold _triggerEvent. split.
  - intros Hret.
    destruct (map_call_returns call data _ Hret) as [promises ->].
    reflexivity.
  - intros before l after -> Hret Hl.
    rewrite (map_call_throws call data before after l Hret Hl). reflexivity.
Qed.

Lemma _triggerEvent_calls_witness :
  (_triggerEvent Payloads.all_return Payloads.two_listeners state_update
     NoData).1
  = [(1%nat, NoData); (2%nat, NoData)]
  ∧ _triggerEvent Payloads.first_throws Payloads.two_listeners state_update
      NoData
    = ([(1%nat, NoData)], Rejected).
Proof.
  split.
  - apply (_triggerEvent_calls Payloads.all_return Payloads.two_listeners
             state_update NoData).
    intros l _. discriminate.
  - apply (_triggerEvent_calls Payloads.first_throws Payloads.two_listeners
             state_update NoData) with (before := []) (after := [2%nat]).
    + reflexivity.
    + intros b Hb. inversion Hb.
    + reflexivity.
Defined.

(** C6, the counterexample.  Listeners 1 and 2 are registered for
    [state_update], in this order, and listener 1 throws: listener 2 is
    never called. *)
Lemma _triggerEvent_first_throws :
  registered Payloads.two_listeners state_update = [1%nat; 2%nat]
  ∧ Payloads.first_throws 1%nat NoData = Throws
  ∧ calls_of 2%nat
      (_triggerEvent Payloads.first_throws Payloads.two_listeners
         state_update NoData).1
    = [].
Proof. repeat split; reflexivity. Qed.

Lemma calls_of_fmap (f : Listener) (data : EventData) (ls : list Listener) :
  calls_of f ((λ l, (l, data)) <$> ls)
  = (λ l, (l, data)) <$> filter (λ l, l = f) ls.
Proof.
  unfold calls_of. induction ls as [|l ls IH]; [reflexivity|].
  rewrite fmap_cons. destruct (decide (l = f)) as [Heq|Hne].
  - rewrite !filter_cons_True by assumption. rewrite fmap_cons, IH.
    reflexivity.
  - rewrite !filter_cons_False by assumption. exact IH.
Qed.

Lemma filter_other (f : Listener) (ls : list Listener) :
  f ∉ ls → filter (λ l, l = f) ls = [].
Proof.
  induction ls as [|l ls IH]; intros Hf; [reflexivity|].
  apply not_elem_of_cons in Hf as [Hne Hf].
  rewrite filter_cons_False by congruence. apply IH, Hf.
Qed.

(** A listener behind one that throws is not called. *)
Lemma calls_of_behind_thrower (call : Listener → EventData → Completion)
    (data : EventData) (ls : list Listener) (f : Listener) :
  f ∉ ls → (∃ l, l ∈ ls ∧ call l data = Throws) →
  calls_of f (map_call call (ls ++ [f]) data).1 = [].
Proof.
  intros Hnew (l & Hl & Hthrows).
  induction ls as [|b ls IH]; [inversion Hl|].
  apply not_elem_of_cons in Hnew as [Hne Hnew]. simpl.
  destruct (call b data) as [returned|] eqn:Hb.
  - apply elem_of_cons in Hl as [->|Hl]; [congruence|].
    specialize (IH Hnew Hl).
    destruct (map_call call (ls ++ [f]) data) as [calls promises]; simpl in *.
    unfold calls_of in *. rewrite filter_cons_False by (simpl; congruence).
    exact IH.
  - simpl. unfold calls_of. rewrite filter_cons_False by (simpl; congruence).
    reflexivity.
Qed.

(** C7 (as amended).  (a) After [addListener(name, f)] of a listener not
    yet registered for [name], one firing of [name] with payload [data]
    calls [f] exactly once, with [data], when none of the listeners
    registered before [f] throws, and does not call [f] when one of them
    does.  (b) After [removeListener(name, f)] a firing of [name] does not
    call [f].  (c) [removeListener] of a listener that is not registered for
    [name] leaves the connection as it was.  (d) Firing an event that has no
    listener makes no call and its promise is fulfilled. *)
Theorem listeners_add_remove_fire (call : Listener → EventData → Completion)
    (this : TimerConnection) (name : EventName) (f : Listener)
    (data : EventData) :
  (f ∉ registered this name →
   ((∀ l, l ∈ registered this name → call l data ≠ Throws) →
    calls_of f (_triggerEvent call (addListener this name f) name data).1
    = [(f, data)])
   ∧ ((∃ l, l ∈ registered this name ∧ call l data = Throws) →
      calls_of f (_triggerEvent call (addListener this name f) name data).1
      = []))
  ∧ calls_of f (_triggerEvent call (removeListener this name f) name data).1
    = []
  ∧ (f ∉ registered this name → removeListener this name f = this)
  ∧ (registered this name = [] →
     _triggerEvent call this name data = ([], Fulfilled)).
Proof.
  split; [|split; [|split]].
  - intros Hnew. split.
    + intros Hret. unfold _triggerEvent.
      rewrite registered_addListener.
      pose proof (map_call_last call data _ f Hret) as Hcalls.
      destruct (map_call call (registered this name ++ [f]) data)
        as [calls promises]; simpl in *. subst calls.
      rewrite calls_of_fmap, filter_app, (filter_other f _ Hnew).
      rewrite filter_cons_True by reflexivity. reflexivity.
    + intros Hthrows. unfold _triggerEvent.
      rewrite registered_addListener.
      pose proof (calls_of_behind_thrower call data _ f Hnew Hthrows) as Hnone.
      destruct (map_call call (registered this name ++ [f]) data)
        as [calls promises]; simpl in *. exact Hnone.
  - unfold _triggerEvent. rewrite registered_removeListener.
    pose proof (map_call_sound call data
                  (filter (λ item, item ≠ f) (registered this name))) as Hs.
    destruct (map_call call _ data) as [calls promises]; simpl in *.
    unfold calls_of. destruct (filter _ calls) as [|c cs] eqn:Hc; [reflexivity|].
    assert (Hin : c ∈ filter (λ c, c.1 = f) calls) by (rewrite Hc; left).
    apply list_elem_of_filter in Hin as [Hcf Hin].
    rewrite Forall_forall in Hs. destruct (Hs c Hin) as [Hreg _].
    apply list_elem_of_filter in Hreg as [Hne _]. congruence.
  - intros Hnew. unfold removeListener, registered in *.
    destruct (listeners this !! name) as [ls|] eqn:Hls; [|reflexivity].
    simpl in Hnew. rewrite (filter_absent f ls Hnew).
    rewrite (insert_id _ _ _ Hls). destruct this; reflexivity.
  - intros Hnone. unfold _triggerEvent. rewrite Hnone. reflexivity.
Qed.

(** On a fresh connection: listener 7 is added for [state_update] and
    called once; added behind listener 1, which throws, it is not called;
    removing listener 8, never added, changes nothing; firing [error],
    which has no listener, calls nobody. *)
Lemma listeners_add_remove_fire_witness :
  calls_of 7%nat
    (_triggerEvent Payloads.all_return
       (addListener Payloads.fresh state_update 7%nat) state_update
       (Snapshot Payloads.anonymous_timer)).1
  = [(7%nat, Snapshot Payloads.anonymous_timer)]
  ∧ calls_of 7%nat
      (_triggerEvent Payloads.first_throws
         (addListener (addListener Payloads.fresh state_update 1%nat)
            state_update 7%nat)
         state_update NoData).1
    = []
  ∧ removeListener Payloads.two_listeners state_update 8%nat
    = Payloads.two_listeners
  ∧ _triggerEvent Payloads.all_return Payloads.two_listeners Socket.error
      NoData
    = ([], Fulfilled).
Proof.
  split; [|split; [|split]].
  - apply (listeners_add_remove_fire Payloads.all_return Payloads.fresh
             state_update 7%nat (Snapshot Payloads.anonymous_timer)).
    + unfold registered; simpl. rewrite lookup_empty. apply not_elem_of_nil.
    + intros l _. discriminate.
  - assert (Hregistered : registered
                            (addListener Payloads.fresh state_update 1%nat)
                            state_update
                          = [1%nat]) by reflexivity.
    destruct (listeners_add_remove_fire Payloads.first_throws
                (addListener Payloads.fresh state_update 1%nat)
                state_update 7%nat NoData) as (Hadded & _).
    apply Hadded.
    + rewrite Hregistered. intros Hin.
      apply list_elem_of_singleton in Hin. discriminate Hin.
    + exists 1%nat. rewrite Hregistered. split; [by left | reflexivity].
  - apply (listeners_add_remove_fire Payloads.all_return
             Payloads.two_listeners state_update 8%nat NoData).
    assert (registered Payloads.two_listeners state_update = [1%nat; 2%nat])
      as -> by reflexivity.
    intros Hin. repeat (apply elem_of_cons in Hin as [Hin|Hin];
                        [discriminate Hin|]).
    inversion Hin.
  - apply (listeners_add_remove_fire Payloads.all_return
             Payloads.two_listeners Socket.error 0%nat NoData).
    reflexivity.
Defined.

(** C7, the counterexamples.  Listener 7 is added for [state_update] behind
    listener 1, which throws: a firing does not call listener 7.  And
    listener 7 added a second time is called twice by one firing.  Neither
    firing calls listener 7 exactly once. *)
Lemma addListener_not_called_once :
  Payloads.behind_first
  = addListener (addListener Payloads.fresh state_update 1%nat)
      state_update 7%nat
  ∧ calls_of 7%nat
      (_triggerEvent Payloads.first_throws Payloads.behind_first state_update
         (Snapshot Payloads.anonymous_timer)).1
    = []
  ∧ Payloads.added_twice
    = addListener (addListener Payloads.fresh state_update 7%nat)
        state_update 7%nat
  ∧ calls_of 7%nat
      (_triggerEvent Payloads.all_return Payloads.added_twice state_update
         (Snapshot Payloads.anonymous_timer)).1
    = [(7%nat, Snapshot Payloads.anonymous_timer);
       (7%nat, Snapshot Payloads.anonymous_timer)]
  ∧ calls_of 7%nat
      (_triggerEvent Payloads.first_throws Payloads.behind_first state_update
         (Snapshot Payloads.anonymous_timer)).1
    ≠ [(7%nat, Snapshot Payloads.anonymous_timer)]
  ∧ calls_of 7%nat
      (_triggerEvent Payloads.all_return Payloads.added_twice state_update
         (Snapshot Payloads.anonymous_timer)).1
    ≠ [(7%nat, Snapshot Payloads.anonymous_timer)].
Proof.
  do 4 (split; [reflexivity|]). split; intros H; vm_compute in H;
    discriminate H.
Qed.

(** ** Payloads *)

Import Wire.

Lemma not_Ok_throws {A} (r : result A) : (∀ a, r ≠ Ok a) → throws r.
Proof. destruct r as [a|e]; intros H; [destruct (H a eq_refl) | by exists e]. Qed.

Ltac unbind H :=
  repeat match type of H with
         | mbind _ ?r = Ok _ =>
           let E := fresh "E" in
           destruct r eqn:E; simpl in H; [|discriminate H]
         end.

Section PayloadFacts.
Context {numeric : StringToNumber}.

(** What a snapshot that was assembled says about its payload. *)
Lemma Timer_new_Ok (data : value) (t : Timer) :
  Timer_new data = Ok t →
  get data "id" = Ok (id t)
  ∧ get data "turn_number" = Ok (turnNumber t)
  ∧ (∃ v, get data "turn_started_at" = Ok v
          ∧ loadOptionalDateTime v = Ok (turnStartedAt t))
  ∧ (∃ v, get data "started_at" = Ok v
          ∧ loadOptionalDateTime v = Ok (startedAt t))
  ∧ get data "has_ended" = Ok (hasEnded t)
  ∧ get data "end_reporter" = Ok (endReporter t)
  ∧ (∃ v, get data "home" = Ok v ∧ optional_side v = Ok (home t))
  ∧ (∃ v, get data "away" = Ok v ∧ optional_side v = Ok (away t))
  ∧ (∃ v, get data "settings" = Ok v ∧ map_settings v = Ok (settings t))
  ∧ get data "observers" = Ok (observers t)
  ∧ get data "managed" = Ok (managed t).
Proof.
  unfold Timer_new. intros H. unbind H. injection H as <-. simpl.
  repeat split; eauto.
Qed.

Lemma loadOptionalDateTime_Ok (v : value) (d : option DateTime) :
  loadOptionalDateTime v = Ok d → v = Null ∨ ∃ n, v = Num n.
Proof. destruct v; simpl; intros H; try discriminate H; eauto. Qed.

Lemma loadDuration_Undefined : loadDuration Undefined = Throw InvalidArgumentError.
Proof. reflexivity. Qed.

Lemma mapM_Ok {A B} (f : A → result B) (l : list A) (k : list B) (x : A) :
  mapM f l = Ok k → x ∈ l → ∃ y, f x = Ok y.
Proof.
  revert k. induction l as [|a l IH]; intros k H Hx; [inversion Hx|].
  simpl in H. unbind H.
  apply elem_of_cons in Hx as [->|Hx]; eauto.
Qed.
End PayloadFacts.

(** A duration read from an absent field is refused. *)
Ltac absent_duration Hmissing :=
  injection Hmissing as ->;
  match goal with
  | L : loadDuration Undefined = Ok _ |- _ => discriminate L
  end.

Section SnapshotAssembly.
Context {numeric : StringToNumber}.

Lemma TimerSide_new_total_time (side : value) :
  get side "total_time" = Ok Undefined → throws (TimerSide_new side).
Proof.
  intros Hmissing. apply not_Ok_throws. intros s Hs.
  unfold TimerSide_new in Hs. unbind Hs. absent_duration Hmissing.
Qed.

Lemma optional_side_total_time (side : value) :
  truthy side = true → get side "total_time" = Ok Undefined →
  throws (optional_side side).
Proof.
  intros Htruthy Hmissing. unfold optional_side. rewrite Htruthy.
  destruct (TimerSide_new_total_time side Hmissing) as [e ->]. by exists e.
Qed.

Lemma StageSettings_load_seconds (stage : value) (key : string) :
  key ∈ ["seconds_fixed_per_turn"; "seconds_incremement_per_turn";
         "initial_seconds"]%string →
  get stage key = Ok Undefined → throws (StageSettings_load stage).
Proof.
  intros Hkey Hmissing. apply not_Ok_throws. intros s Hs.
  unfold StageSettings_load in Hs.
  repeat (apply elem_of_cons in Hkey as [->|Hkey]);
    [| | |inversion Hkey]; unbind Hs; absent_duration Hmissing.
Qed.

(** Property access fails on [undefined] and [null] alone, whatever the
    key. *)
Lemma get_defined (data : value) :
  (∃ properties, ∀ key, get data key = Ok (properties key))
  ∨ (∀ key, get data key = Throw TypeError).
Proof.
  destruct data as [| |b|n|s|items|fields];
    [right; reflexivity | right; reflexivity | left; exists (λ _, Undefined)..
    | left; exists (λ key, field key fields)]; reflexivity.
Qed.

(** [new Timer(data)] on a payload that has properties: the five steps
    that can throw, in the order in which they run. *)
Lemma Timer_new_defined (data : value) (properties : string → value) :
  (∀ key, get data key = Ok (properties key)) →
  Timer_new data
  = (turnStartedAt ← loadOptionalDateTime (properties "turn_started_at");
     startedAt ← loadOptionalDateTime (properties "started_at");
     home ← optional_side (properties "home");
     away ← optional_side (properties "away");
     settings ← map_settings (properties "settings");
     Ok {| id := properties "id"; turnNumber := properties "turn_number";
           turnStartedAt := turnStartedAt; startedAt := startedAt;
           hasEnded := properties "has_ended";
           endReporter := properties "end_reporter";
           home := home; away := away; settings := settings;
           observers := properties "observers";
           managed := properties "managed" |}).
Proof. intros Hget. unfold Timer_new. rewrite !Hget. reflexivity. Qed.

(** The two kinds of error that the assembly surfaces. *)
Lemma loadOptionalDateTime_Throw (v : value) (e : exn) :
  loadOptionalDateTime v = Throw e → e = InvalidArgumentError.
Proof. destruct v; simpl; intros H; congruence. Qed.

Lemma loadDuration_Throw (v : value) (e : exn) :
  loadDuration v = Throw e → e = InvalidArgumentError.
Proof.
  unfold loadDuration, Duration_fromMillis.
  destruct (PrimFloat.is_nan _); congruence.
Qed.

Lemma get_Throw (data : value) (key : string) (e : exn) :
  get data key = Throw e → e = TypeError.
Proof. destruct data; simpl; congruence. Qed.

Ltac unthrow H :=
  lazymatch type of H with
  | mbind _ ?r = Throw _ =>
    let E := fresh "E" in
    destruct r eqn:E; simpl in H; [unthrow H | injection H as <-]
  | _ => try discriminate H
  end.

Lemma TimerSide_new_Throw (side : value) (e : exn) :
  TimerSide_new side = Throw e → e = TypeError ∨ e = InvalidArgumentError.
Proof.
  unfold TimerSide_new. intros H. unthrow H;
    eauto using get_Throw, loadDuration_Throw.
Qed.

Lemma optional_side_Throw (side : value) (e : exn) :
  optional_side side = Throw e → e = TypeError ∨ e = InvalidArgumentError.
Proof.
  unfold optional_side. destruct (truthy side); [|discriminate].
  destruct (TimerSide_new side) eqn:Hnew; simpl; [discriminate|].
  intros [= <-]. eauto using TimerSide_new_Throw.
Qed.

Lemma StageSettings_load_Throw (stage : value) (e : exn) :
  StageSettings_load stage = Throw e →
  e = TypeError ∨ e = InvalidArgumentError.
Proof.
  unfold StageSettings_load. intros H. unthrow H;
    eauto using get_Throw, loadDuration_Throw.
Qed.

Lemma map_settings_Throw (settings : value) (e : exn) :
  map_settings settings = Throw e → e = TypeError ∨ e = InvalidArgumentError.
Proof.
  destruct settings as [| |b|n|s|items|fields]; simpl;
    try (intros [= <-]; left; reflexivity).
  induction items as [|item items IH]; simpl; [discriminate|].
  intros H. unthrow H; eauto using StageSettings_load_Throw.
Qed.

(** C8 (as amended).  Assembling a snapshot throws when [settings] is not
    an array, when [turn_started_at] or [started_at] is neither [null] nor
    a number (an absent one is [undefined]), when a side that is present
    has no [total_time], and when a stage has no value for one of its three
    durations; what is thrown is the engine's [TypeError] or Luxon's
    [InvalidArgumentError].  Nothing else is checked: a snapshot that is
    assembled stores under [id], [turnNumber], [hasEnded], [endReporter],
    [observers] and [managed] whatever the payload holds there, [undefined]
    for an absent field, and an absent [home] or [away] becomes an absent
    side; and two payloads that hold the same under [turn_started_at],
    [started_at], [home], [away] and [settings] are assembled alike, both
    with the same error or both into snapshots with the same instants,
    sides and stages, whatever they hold under the other six fields. *)
Theorem Timer_new_checks (data : value) :
  ((∀ items, get data "settings" ≠ Ok (Arr items)) → throws (Timer_new data))
  ∧ (∀ key v, key ∈ ["turn_started_at"; "started_at"]%string →
       get data key = Ok v → v ≠ Null → (∀ n, v ≠ Num n) →
       throws (Timer_new data))
  ∧ (∀ key side, key ∈ ["home"; "away"]%string →
       get data key = Ok side → truthy side = true →
       get side "total_time" = Ok Undefined → throws (Timer_new data))
  ∧ (∀ items stage key,
       get data "settings" = Ok (Arr items) → stage ∈ items →
       key ∈ ["seconds_fixed_per_turn"; "seconds_incremement_per_turn";
              "initial_seconds"]%string →
       get stage key = Ok Undefined → throws (Timer_new data))
  ∧ (∀ e, Timer_new data = Throw e →
       e = TypeError ∨ e = InvalidArgumentError)
  ∧ (∀ t, Timer_new data = Ok t →
       get data "id" = Ok (id t)
       ∧ get data "turn_number" = Ok (turnNumber t)
       ∧ get data "has_ended" = Ok (hasEnded t)
       ∧ get data "end_reporter" = Ok (endReporter t)
       ∧ get data "observers" = Ok (observers t)
       ∧ get data "managed" = Ok (managed t)
       ∧ (get data "home" = Ok Undefined → home t = None)
       ∧ (get data "away" = Ok Undefined → away t = None))
  ∧ (∀ other,
       (∀ key, key ∈ ["turn_started_at"; "started_at"; "home"; "away";
                      "settings"]%string →
          get other key = get data key) →
       match Timer_new data, Timer_new other with
       | Ok t, Ok t' =>
         turnStartedAt t' = turnStartedAt t ∧ startedAt t' = startedAt t
         ∧ home t' = home t ∧ away t' = away t ∧ settings t' = settings t
       | Throw e, Throw e' => e' = e
       | _, _ => False
       end).
Proof.
  split; [|split; [|split; [|split; [|split; [|split]]]]].
  - intros Hnot. apply not_Ok_throws. intros t Ht.
    apply Timer_new_Ok in Ht
      as (_ & _ & _ & _ & _ & _ & _ & _ & (v & Hv & Hmap) & _).
    destruct v; try discriminate Hmap. exact (Hnot _ Hv).
  - intros key v Hkey Hv Hnull Hnum. apply not_Ok_throws. intros t Ht.
    apply Timer_new_Ok in Ht
      as (_ & _ & (v1 & Hv1 & Hl1) & (v2 & Hv2 & Hl2) & _).
    repeat (apply elem_of_cons in Hkey as [->|Hkey]); [| |inversion Hkey].
    + rewrite Hv in Hv1. injection Hv1 as <-.
      destruct (loadOptionalDateTime_Ok _ _ Hl1) as [->|[n ->]];
        [congruence | exact (Hnum n eq_refl)].
    + rewrite Hv in Hv2. injection Hv2 as <-.
      destruct (loadOptionalDateTime_Ok _ _ Hl2) as [->|[n ->]];
        [congruence | exact (Hnum n eq_refl)].
  - intros key side Hkey Hside Htruthy Hmissing.
    apply not_Ok_throws. intros t Ht.
    apply Timer_new_Ok in Ht
      as (_ & _ & _ & _ & _ & _ & (v1 & Hv1 & Hs1) & (v2 & Hv2 & Hs2) & _).
    destruct (optional_side_total_time side Htruthy Hmissing) as [e He].
    repeat (apply elem_of_cons in Hkey as [->|Hkey]); [| |inversion Hkey].
    + rewrite Hside in Hv1. injection Hv1 as <-. congruence.
    + rewrite Hside in Hv2. injection Hv2 as <-. congruence.
  - intros items stage key Hitems Hstage Hkey Hmissing.
    apply not_Ok_throws. intros t Ht.
    apply Timer_new_Ok in Ht
      as (_ & _ & _ & _ & _ & _ & _ & _ & (v & Hv & Hmap) & _).
    rewrite Hitems in Hv. injection Hv as <-. simpl in Hmap.
    destruct (mapM_Ok _ _ _ _ Hmap Hstage) as [s Hs].
    destruct (StageSettings_load_seconds stage key Hkey Hmissing) as [e He].
    congruence.
  - intros e. destruct (get_defined data) as [[properties Hget]|Hnone].
    + rewrite (Timer_new_defined data properties Hget). intros H.
      unthrow H;
        eauto using loadOptionalDateTime_Throw, optional_side_Throw,
                    map_settings_Throw.
    + unfold Timer_new. rewrite (Hnone "id"%string). simpl.
      intros [= <-]. left. reflexivity.
  - intros t Ht.
    apply Timer_new_Ok in Ht
      as (Hid & Hturn & _ & _ & Hended & Hreporter
          & (v1 & Hv1 & Hs1) & (v2 & Hv2 & Hs2) & _ & Hobs & Hman).
    repeat (split; [assumption|]). split.
    + intros Habsent. rewrite Habsent in Hv1. injection Hv1 as <-.
      injection Hs1 as <-. reflexivity.
    + intros Habsent. rewrite Habsent in Hv2. injection Hv2 as <-.
      injection Hs2 as <-. reflexivity.
  - intros other Hsame.
    assert (H1 : get other "turn_started_at" = get data "turn_started_at")
      by (apply Hsame; set_solver).
    assert (H2 : get other "started_at" = get data "started_at")
      by (apply Hsame; set_solver).
    assert (H3 : get other "home" = get data "home")
      by (apply Hsame; set_solver).
    assert (H4 : get other "away" = get data "away")
      by (apply Hsame; set_solver).
    assert (H5 : get other "settings" = get data "settings")
      by (apply Hsame; set_solver).
    destruct (get_defined data) as [[properties Hget]|Hnone],
             (get_defined other) as [[properties' Hget']|Hnone'].
    + rewrite Hget, Hget' in H1, H2, H3, H4, H5.
      rewrite (Timer_new_defined data properties Hget),
              (Timer_new_defined other properties' Hget').
      injection H1 as ->. injection H2 as ->. injection H3 as ->.
      injection H4 as ->. injection H5 as ->.
      destruct (loadOptionalDateTime (properties "turn_started_at"));
        simpl; [|reflexivity].
      destruct (loadOptionalDateTime (properties "started_at"));
        simpl; [|reflexivity].
      destruct (optional_side (properties "home")); simpl; [|reflexivity].
      destruct (optional_side (properties "away")); simpl; [|reflexivity].
      destruct (map_settings (properties "settings")); simpl; [|reflexivity].
      repeat split; reflexivity.
    + rewrite Hget, Hnone' in H5. discriminate H5.
    + rewrite Hnone, Hget' in H5. discriminate H5.
    + unfold Timer_new.
      rewrite (Hnone "id"%string), (Hnone' "id"%string). reflexivity.
Qed.

End SnapshotAssembly.

(** A snapshot without [id] is assembled, and reports its [id] as the
    [undefined] found in the payload; a payload with nothing under
    [settings] is refused; and the payload without [id] is assembled like
    the one with it. *)
Lemma Timer_new_checks_witness :
  get Payloads.anonymous_payload "id" = Ok (id Payloads.anonymous_timer)
  ∧ throws (Timer_new (numeric := Payloads.no_numeric_strings) (Obj []))
  ∧ match Timer_new (numeric := Payloads.no_numeric_strings)
            Payloads.snapshot_payload,
          Timer_new (numeric := Payloads.no_numeric_strings)
            Payloads.anonymous_payload with
    | Ok t, Ok t' =>
      turnStartedAt t' = turnStartedAt t ∧ startedAt t' = startedAt t
      ∧ home t' = home t ∧ away t' = away t ∧ settings t' = settings t
    | Throw e, Throw e' => e' = e
    | _, _ => False
    end.
Proof.
  split; [|split].
  - apply (Timer_new_checks (numeric := Payloads.no_numeric_strings)
             Payloads.anonymous_payload).
    reflexivity.
  - apply (Timer_new_checks (numeric := Payloads.no_numeric_strings) (Obj [])).
    intros items. discriminate.
  - apply (Timer_new_checks (numeric := Payloads.no_numeric_strings)
             Payloads.snapshot_payload).
    intros key Hkey.
    repeat (apply elem_of_cons in Hkey as [->|Hkey]; [reflexivity|]).
    inversion Hkey.
Defined.

(** C8, the counterexample.  A payload with every field but [id] is
    assembled without a failure, and the snapshot's [id] is [undefined]. *)
Lemma Timer_new_without_id :
  get Payloads.anonymous_payload "id" = Ok Undefined
  ∧ Timer_new (numeric := Payloads.no_numeric_strings)
      Payloads.anonymous_payload
    = Ok Payloads.anonymous_timer
  ∧ id Payloads.anonymous_timer = Undefined.
Proof. repeat split; reflexivity. Qed.

(** ** Errors reported over the socket *)

(** C9 (as amended).  For every error payload that has fields, each
    listener that [_onError] calls receives an error whose [detail] is the
    payload's [detail] as it is and whose [code] is 400: no code is read
    from the payload. *)
Theorem _onError_delivers (call : Listener → EventData → Completion)
    (this : TimerConnection) (rawError text : value) :
  get rawError "detail" = Ok text →
  ∃ calls settled,
    _onError call this rawError = Ok (calls, settled)
    ∧ (calls, settled)
      = _triggerEvent call this Socket.error
          (Failure {| code := Num 400; detail := text |})
    ∧ Forall (λ c, c.1 ∈ registered this Socket.error
                   ∧ c.2 = Failure {| code := Num 400; detail := text |})
             calls.
Proof.
  intros Hdetail. unfold _onError. rewrite Hdetail. simpl.
  unfold ApiError_new, _triggerEvent.
  pose proof (map_call_sound call
                (Failure {| code := Num 400; detail := text |})
                (registered this Socket.error)) as Hsound.
  destruct (map_call call _ _) as [calls promises]; simpl in *.
  eauto.
Qed.

Lemma _onError_delivers_witness :
  ∃ calls settled,
    _onError Payloads.all_return
      (addListener Payloads.fresh Socket.error 1%nat) Payloads.forbidden
    = Ok (calls, settled)
    ∧ (calls, settled)
      = _triggerEvent Payloads.all_return
          (addListener Payloads.fresh Socket.error 1%nat) Socket.error
          (Failure {| code := Num 400; detail := Str "Not your turn" |})
    ∧ Forall (λ c, c.1 ∈ registered
                           (addListener Payloads.fresh Socket.error 1%nat)
                           Socket.error
                   ∧ c.2 = Failure {| code := Num 400;
                                      detail := Str "Not your turn" |})
             calls.
Proof.
  apply (_onError_delivers Payloads.all_return
           (addListener Payloads.fresh Socket.error 1%nat)
           Payloads.forbidden (Str "Not your turn")).
  reflexivity.
Defined.

(** C9, the counterexample.  The payload carries the code 403; the error
    that the listener receives carries 400. *)
Lemma _onError_drops_code :
  get Payloads.forbidden "code" = Ok (Num 403)
  ∧ _onError Payloads.all_return
      (addListener Payloads.fresh Socket.error 1%nat) Payloads.forbidden
    = Ok ([(1%nat, Failure {| code := Num 400;
                              detail := Str "Not your turn" |})],
          Fulfilled)
  ∧ Num 400 ≠ Num 403.
Proof.
  split; [reflexivity|]. split; [reflexivity|].
  intros H. discriminate H.
Qed.

(** ** Stage settings on the wire *)

Lemma survivesb_survives (d : Duration) : survivesb d = true → survives d.
Proof.
  unfold survivesb, survives. intros [Hnan Heq]%andb_true_iff. split.
  - apply negb_true_iff, Hnan.
  - apply FloatAxioms.Leibniz.eqb_spec, Heq.
Qed.

Lemma whole_seconds_survive_all (count : nat) (first seconds : Z) :
  whole_seconds_survive first count = true →
  first ≤ seconds < first + Z.of_nat count →
  survives (whole_seconds seconds).
Proof.
  revert first. induction count as [|count IH]; intros first Hall Hrange;
    [lia|].
  simpl in Hall. apply andb_true_iff in Hall as [Hfirst Hrest].
  destruct (Z.eq_dec seconds first) as [->|Hne].
  - apply survivesb_survives, Hfirst.
  - apply (IH (first + 1)); [assumption | lia].
Qed.

(** Every whole number of seconds up to a day survives. *)
Lemma whole_seconds_survives (seconds : Z) :
  0 ≤ seconds ≤ 86400 → survives (whole_seconds seconds).
Proof.
  intros Hrange.
  apply (whole_seconds_survive_all (Z.to_nat 86401) 0).
  - vm_compute. reflexivity.
  - rewrite Z2Nat.id; lia.
Qed.

Section StageSettingsOnTheWire.
Context {numeric : StringToNumber}.

Lemma Duration_fromMillis_Ok (count : float) (d : Duration) :
  Duration_fromMillis count = Ok d ↔ PrimFloat.is_nan count = false ∧ d = count.
Proof.
  unfold Duration_fromMillis. destruct (PrimFloat.is_nan count); split.
  - discriminate.
  - intros [H _]. discriminate H.
  - intros [= <-]. auto.
  - intros [_ ->]. reflexivity.
Qed.

(** What [load] makes of what [dump] wrote. *)
Lemma load_of_dump (s : StageSettings) :
  StageSettings_load (StageSettings_dump s)
  = (fixed ← Duration_fromMillis (reloaded (fixedTimePerTurn s));
     increment ← Duration_fromMillis (reloaded (incrementPerTurn s));
     initial ← Duration_fromMillis (reloaded (initialTime s));
     Ok {| startTurn := startTurn s; fixedTimePerTurn := fixed;
           incrementPerTurn := increment; initialTime := initial |}).
Proof. reflexivity. Qed.

End StageSettingsOnTheWire.

Section StageSettingsRoundTrip.
Context {numeric : StringToNumber}.

(** C10 (as amended).  For every [StageSettings] [s] whose three
    durations are whole numbers of milliseconds,
    [StageSettings.load(s.dump())] gives back [s], in all four fields,
    exactly when each of the three durations survives the conversion to
    seconds and back, that is, when [(d / 1000) * 1000 = d] in binary64
    arithmetic for its number [d] of milliseconds; every whole number of
    seconds up to 86400 does. *)
Theorem StageSettings_load_dump (s : StageSettings) :
  whole_milliseconds (fixedTimePerTurn s) →
  whole_milliseconds (incrementPerTurn s) →
  whole_milliseconds (initialTime s) →
  (StageSettings_load (StageSettings_dump s) = Ok s
   ↔ survives (fixedTimePerTurn s) ∧ survives (incrementPerTurn s)
     ∧ survives (initialTime s))
  ∧ (∀ fixed increment initial,
       0 ≤ fixed ≤ 86400 → 0 ≤ increment ≤ 86400 → 0 ≤ initial ≤ 86400 →
       fixedTimePerTurn s = whole_seconds fixed →
       incrementPerTurn s = whole_seconds increment →
       initialTime s = whole_seconds initial →
       StageSettings_load (StageSettings_dump s) = Ok s).
Proof.
  intros _ _ _.
  assert (Hiff : StageSettings_load (StageSettings_dump s) = Ok s
                 ↔ survives (fixedTimePerTurn s)
                   ∧ survives (incrementPerTurn s)
                   ∧ survives (initialTime s)).
  { rewrite load_of_dump. unfold survives.
    destruct s as [start fixed increment initial]; simpl. split.
    - intros H. unbind H.
      repeat match goal with
             | E : Duration_fromMillis _ = Ok _ |- _ =>
               apply Duration_fromMillis_Ok in E as [? ->]
             end.
      injection H as Hfixed Hincrement Hinitial.
      repeat split; try assumption; congruence.
    - intros ((Hn1 & H1) & (Hn2 & H2) & (Hn3 & H3)).
      rewrite H1, H2, H3. unfold Duration_fromMillis.
      rewrite Hn1, Hn2, Hn3. reflexivity. }
  split; [exact Hiff|].
  intros fixed increment initial Hfixed Hincrement Hinitial Ef Ei En.
  apply Hiff. rewrite Ef, Ei, En.
  auto using whole_seconds_survives.
Qed.

End StageSettingsRoundTrip.

(** The README stage: no allotment per turn, 30 s of increment, 300 s of
    initial time. *)
Lemma StageSettings_load_dump_witness :
  StageSettings_load (numeric := Payloads.no_numeric_strings)
    (StageSettings_dump Payloads.readme_stage)
  = Ok Payloads.readme_stage.
Proof.
  apply (StageSettings_load_dump (numeric := Payloads.no_numeric_strings)
           Payloads.readme_stage) with (fixed := 0) (increment := 30)
                                       (initial := 300);
    first [ reflexivity | lia
          | exists 0; split; [vm_compute; split; discriminate | reflexivity]
          | exists 30000; split; [vm_compute; split; discriminate | reflexivity]
          | exists 300000; split; [vm_compute; split; discriminate | reflexivity] ].
Defined.

(** C10, the counterexample.  An allotment per turn of 1001 ms is dumped
    as 1.001 s and loaded as a duration that is shorter than 1001 ms. *)
Lemma StageSettings_load_dump_1001 :
  fixedTimePerTurn Payloads.odd_stage = millis 1001
  ∧ incrementPerTurn Payloads.odd_stage = millis 0
  ∧ initialTime Payloads.odd_stage = millis 300000
  ∧ StageSettings_load (numeric := Payloads.no_numeric_strings)
      (StageSettings_dump Payloads.odd_stage)
    = Ok {| startTurn := Num 0; fixedTimePerTurn := reloaded 1001;
            incrementPerTurn := 0%float; initialTime := 300000%float |}
  ∧ PrimFloat.ltb (reloaded 1001) 1001 = true
  ∧ StageSettings_load (numeric := Payloads.no_numeric_strings)
      (StageSettings_dump Payloads.odd_stage)
    ≠ Ok Payloads.odd_stage.
Proof.
  do 5 (split; [reflexivity|]).
  intros H. apply (f_equal (λ r, match r with
                                  | Ok s => Prim2SF (fixedTimePerTurn s)
                                  | Throw _ => S754_nan
                                  end)) in H.
  vm_compute in H. discriminate H.
Qed.

(** * Further properties *)

(** ** Stage resolution, whatever the storage order *)

Import Clock.

Lemma find_skip {A} (p : A → bool) (skipped rest : list A) :
  Forall (λ x, p x = false) skipped →
  List.find p (skipped ++ rest) = List.find p rest.
Proof.
  induction 1 as [|x skipped Hx _ IH]; [reflexivity|].
  simpl. rewrite Hx. exact IH.
Qed.

Lemma find_pointwise {A} (p q : A → bool) (l : list A) :
  (∀ x, p x = q x) → List.find p l = List.find q l.
Proof.
  intros Hpq. induction l as [|x l IH]; [reflexivity|].
  simpl. rewrite Hpq, IH. reflexivity.
Qed.

(** [stageSettings] returns the last stage, in the order the schedule is
    stored, among the stages that start at or before the turn pair: [stage]
    is returned exactly when it has started and no stage stored after it
    has.  With two stages of the same [startTurn] the one stored later
    wins. *)
Theorem stageSettings_last_started (t : Timer) (stage : StageSettings) :
  stageSettings t = Ok stage
  ↔ ∃ before after, settings t = before ++ stage :: after
                    ∧ startTurn stage ≤ turnPair t
                    ∧ Forall (λ s, turnPair t < startTurn s) after.
Proof.
  split; [apply stageSettings_Ok|].
  intros (before & after & Hl & Hle & Hafter).
  unfold stageSettings. rewrite Hl, rev_app_distr. simpl.
  rewrite <- app_assoc. rewrite find_skip.
  - simpl. apply starts_by_turnPair in Hle. rewrite Hle. reflexivity.
  - apply Forall_forall. intros s Hs.
    apply list_elem_of_In, in_rev, list_elem_of_In in Hs.
    rewrite Forall_forall in Hafter. specialize (Hafter s Hs).
    destruct (starts_by (turn t) s) eqn:Hp; [|reflexivity].
    apply starts_by_turnPair in Hp. lia.
Qed.

(** The stage depends on the turn number through the turn pair only: two
    snapshots with the same schedule and turn numbers of the same pair
    (2k and 2k + 1, or any two negative ones, which count as pair 0)
    resolve alike, to the same stage or to the same failure. *)
Theorem stageSettings_turn_pair (t1 t2 : Timer) :
  settings t1 = settings t2 → turnPair t1 = turnPair t2 →
  stageSettings t1 = stageSettings t2.
Proof.
  intros Hsettings Hpair. unfold stageSettings. rewrite Hsettings.
  rewrite (find_pointwise (starts_by (turn t1)) (starts_by (turn t2)));
    [reflexivity|].
  intros s.
  destruct (starts_by (turn t1) s) eqn:H1, (starts_by (turn t2) s) eqn:H2;
    try reflexivity.
  - apply starts_by_turnPair in H1. rewrite Hpair in H1.
    apply starts_by_turnPair in H1. congruence.
  - apply starts_by_turnPair in H2. rewrite <- Hpair in H2.
    apply starts_by_turnPair in H2. congruence.
Qed.

Lemma stageSettings_turn_pair_witness :
  stageSettings MoreExamples.turn20_timer = stageSettings Examples.readme_timer.
Proof.
  apply (stageSettings_turn_pair MoreExamples.turn20_timer
           Examples.readme_timer); reflexivity.
Defined.

(** Once a schedule resolves it keeps resolving as the turn pair grows,
    and in a schedule stored by ascending [startTurn] the stage never goes
    back to an earlier [startTurn]. *)
Theorem stageSettings_monotone (t1 t2 : Timer) (s1 : StageSettings) :
  settings t1 = settings t2 → turnPair t1 ≤ turnPair t2 →
  stageSettings t1 = Ok s1 →
  ∃ s2, stageSettings t2 = Ok s2
        ∧ (ascending (settings t1) → startTurn s1 ≤ startTurn s2).
Proof.
  intros Hsettings Hpair H1.
  destruct (stageSettings_Ok _ _ H1) as (b1 & a1 & Hl1 & Hle1 & _).
  assert (Hin : s1 ∈ settings t2) by (rewrite <- Hsettings, Hl1; set_solver).
  destruct (stageSettings_started t2 s1 Hin) as [s2 H2]; [lia|].
  exists s2. split; [assumption|]. intros Hsorted.
  destruct (stageSettings_Ok _ _ H2) as (b2 & a2 & Hl2 & Hle2 & Ha2).
  unfold ascending in Hsorted. rewrite Hsettings, Hl2 in Hsorted.
  rewrite Hl2 in Hin. apply elem_of_app in Hin as [Hin|Hin].
  - eapply (StronglySorted_app_1_elem_of _ _ _ s1 s2 Hsorted); set_solver.
  - apply elem_of_cons in Hin as [->|Hin]; [lia|].
    rewrite Forall_forall in Ha2. specialize (Ha2 s1 Hin). lia.
Qed.

Lemma stageSettings_monotone_witness :
  ∃ s2, stageSettings Examples.readme_timer = Ok s2
        ∧ (ascending (settings Examples.turn19_timer) →
           startTurn Examples.blitz ≤ startTurn s2).
Proof.
  apply (stageSettings_monotone Examples.turn19_timer Examples.readme_timer
           Examples.blitz).
  - reflexivity.
  - vm_compute. discriminate.
  - reflexivity.
Defined.

(** ** The clocks of the side to move *)

(** The two remaining times for the side to move, from [turnStartedAt]
    on. *)
Lemma running_clock (timer : Timer) (side : TimerSide) (now : DateTime)
    (started : DateTime) (stage : StageSettings) :
  turnStartedAt timer = Some started → isTurn side = true →
  stageSettings timer = Ok stage → started ≤ now →
  totalTimeRemaining timer side now
  = Ok (Some (if now - started - fixedTimePerTurn stage <? 0
              then totalTimeLastTurn side
              else totalTimeLastTurn side
                   - (now - started - fixedTimePerTurn stage)))
  ∧ turnTimeRemaining timer side now
    = Ok (Some (if 0 <? fixedTimePerTurn stage - (now - started)
                then fixedTimePerTurn stage - (now - started)
                else 0)).
Proof.
  intros Hstarted Hturn Hstage Hnow.
  unfold totalTimeRemaining, turnTimeRemaining.
  rewrite Hstarted, Hturn, Hstage. simpl. unfold Interval_toDuration.
  destruct (now <? started) eqn:Hlt; [apply Z.ltb_lt in Hlt; lia|]. simpl.
  split.
  - destruct (_ <? 0); reflexivity.
  - destruct (0 <? _); reflexivity.
Qed.

(** The clocks of the side to move never run backwards: between two
    instants from [turnStartedAt] on, neither the bank nor the allotment
    grows, and the bank never exceeds [totalTimeLastTurn]. *)
Theorem remaining_times_decrease (timer : Timer) (side : TimerSide)
    (earlier later started : DateTime) (stage : StageSettings) :
  turnStartedAt timer = Some started → isTurn side = true →
  stageSettings timer = Ok stage → started ≤ earlier → earlier ≤ later →
  ∃ bank1 bank2 allotment1 allotment2,
    totalTimeRemaining timer side earlier = Ok (Some bank1)
    ∧ totalTimeRemaining timer side later = Ok (Some bank2)
    ∧ turnTimeRemaining timer side earlier = Ok (Some allotment1)
    ∧ turnTimeRemaining timer side later = Ok (Some allotment2)
    ∧ bank2 ≤ bank1 ≤ totalTimeLastTurn side
    ∧ allotment2 ≤ allotment1.
Proof.
  intros Hstarted Hturn Hstage Hearlier Hlater.
  destruct (running_clock timer side earlier started stage Hstarted Hturn
              Hstage Hearlier) as (-> & ->).
  destruct (running_clock timer side later started stage Hstarted Hturn
              Hstage) as (-> & ->); [lia|].
  do 4 eexists. repeat (split; [reflexivity|]).
  repeat match goal with
         | |- context [?a <? ?b] =>
           let H := fresh "H" in
           destruct (a <? b) eqn:H; rewrite ?Z.ltb_lt, ?Z.ltb_ge in H
         end; lia.
Qed.

Lemma remaining_times_decrease_witness :
  ∃ bank1 bank2 allotment1 allotment2,
    totalTimeRemaining Examples.slow_timer Examples.mover 1010000
    = Ok (Some bank1)
    ∧ totalTimeRemaining Examples.slow_timer Examples.mover 1090000
      = Ok (Some bank2)
    ∧ turnTimeRemaining Examples.slow_timer Examples.mover 1010000
      = Ok (Some allotment1)
    ∧ turnTimeRemaining Examples.slow_timer Examples.mover 1090000
      = Ok (Some allotment2)
    ∧ bank2 ≤ bank1 ≤ totalTimeLastTurn Examples.mover
    ∧ allotment2 ≤ allotment1.
Proof.
  apply (remaining_times_decrease Examples.slow_timer Examples.mover
           1010000 1090000 1000000 Examples.slow);
    first [reflexivity | lia].
Defined.

(** A schedule that does not resolve makes every clock quantity that reads
    the stage fail with the same error: [turnTimeRemaining] always,
    [totalTimeRemaining] unless the timer has started and the side is not
    to move (its frozen bank is still returned), [timesOutAt] once the timer
    has started (before, the sentinel is still returned). *)
Theorem clock_needs_stage (timer : Timer) (side : TimerSide) (now : DateTime)
    (e : exn) :
  stageSettings timer = Throw e →
  turnTimeRemaining timer side now = Throw e
  ∧ totalTimeRemaining timer side now
    = match turnStartedAt timer with
      | Some _ =>
        if isTurn side then Throw e else Ok (Some (totalTimeLastTurn side))
      | None => Throw e
      end
  ∧ timesOutAt timer side
    = match turnStartedAt timer with
      | Some _ => Throw e
      | None => Ok (DateTime_fromSeconds MAX_SAFE_INTEGER)
      end.
Proof.
  intros Hfail. unfold turnTimeRemaining, totalTimeRemaining, timesOutAt.
  rewrite Hfail. destruct (turnStartedAt timer), (isTurn side); simpl;
    repeat split; reflexivity.
Qed.

Lemma clock_needs_stage_witness :
  turnTimeRemaining MoreExamples.empty_timer Examples.waiter 1010000
  = Throw InvalidConfiguration
  ∧ totalTimeRemaining MoreExamples.empty_timer Examples.waiter 1010000
    = Ok (Some 280000)
  ∧ timesOutAt MoreExamples.empty_timer Examples.waiter
    = Throw InvalidConfiguration.
Proof.
  apply (clock_needs_stage MoreExamples.empty_timer Examples.waiter 1010000
           InvalidConfiguration).
  reflexivity.
Defined.

(** ** The registry and the firing of events *)

Import Wire Socket.

Section Firing.
Variable call : Listener → EventData → Completion.
Variable data : EventData.

Lemma map_call_prefix (ls : list Listener) :
  ∃ rest, ls = (map_call call ls data).1.*1 ++ rest.
Proof.
  induction ls as [|l ls [rest IH]]; simpl; [by exists []|].
  destruct (call l data) as [rejected|]; simpl.
  - destruct (map_call call ls data) as [calls promises]; simpl in *.
    exists rest. f_equal. exact IH.
  - by exists ls.
Qed.

(** What [map] collects when no listener throws, and that it collects
    nothing when one does. *)
Lemma map_call_promises (ls : list Listener) :
  match (map_call call ls data).2 with
  | Some promises => Forall2 (λ l p, call l data = Returns p) ls promises
  | None => ∃ l, l ∈ ls ∧ call l data = Throws
  end.
Proof.
  induction ls as [|l ls IH]; simpl; [constructor|].
  destruct (call l data) as [returned|] eqn:Hl; simpl.
  - destruct (map_call call ls data) as [calls [promises|]]; simpl in *.
    + constructor; assumption.
    + destruct IH as (l' & Hin & Hthrows). exists l'. split; [by right|].
      assumption.
  - exists l. split; [by left | assumption].
Qed.

Lemma Forall2_returned (ls : list Listener) (promises : list Returned)
    (p : Returned) :
  Forall2 (λ l p, call l data = Returns p) ls promises →
  (p ∈ promises ↔ ∃ l, l ∈ ls ∧ call l data = Returns p).
Proof.
  induction 1 as [|l q ls promises Hl _ IH].
  - split; [intros H; inversion H | intros (l & H & _); inversion H].
  - rewrite elem_of_cons, IH. split.
    + intros [->|(l' & Hin & Hp)]; [exists l | exists l']; split;
        first [by left | by right | assumption].
    + intros (l' & [->|Hin]%elem_of_cons & Hp);
        [left; congruence | right; eauto].
Qed.

Lemma Forall2_called (ls : list Listener) (promises : list Returned)
    (l : Listener) :
  Forall2 (λ l p, call l data = Returns p) ls promises → l ∈ ls →
  ∃ p, p ∈ promises ∧ call l data = Returns p.
Proof.
  induction 1 as [|l' q ls promises Hl _ IH]; intros Hin; [inversion Hin|].
  apply elem_of_cons in Hin as [->|Hin].
  - exists q. split; [by left | assumption].
  - destruct (IH Hin) as (p & Hp & Hcall). exists p. split; [by right|].
    assumption.
Qed.

Lemma existsb_elem_of (test : Returned → bool) (p : Returned)
    (promises : list Returned) :
  (∀ q, test q = true ↔ q = p) →
  (existsb test promises = true ↔ p ∈ promises).
Proof.
  intros Htest. rewrite existsb_exists. split.
  - intros (q & Hin & Hq). apply Htest in Hq as ->.
    apply list_elem_of_In, Hin.
  - intros Hin. exists p. split; [apply list_elem_of_In, Hin|].
    apply Htest. reflexivity.
Qed.

Lemma Promise_all_cases (promises : list Returned) :
  (Promise_all promises = Rejected ↔ WillReject ∈ promises)
  ∧ (Promise_all promises = Pending
     ↔ (WillReject ∉ promises) ∧ NeverSettles ∈ promises)
  ∧ (Promise_all promises = Fulfilled
     ↔ Forall (λ p, p = WillFulfil) promises).
Proof.
  assert (Hrejects : existsb rejects promises = true ↔ WillReject ∈ promises).
  { apply existsb_elem_of. intros []; simpl; split; congruence. }
  assert (Hnever : existsb never_settles promises = true
                   ↔ NeverSettles ∈ promises).
  { apply existsb_elem_of. intros []; simpl; split; congruence. }
  assert (Hall : Forall (λ p, p = WillFulfil) promises
                 ↔ (WillReject ∉ promises) ∧ (NeverSettles ∉ promises)).
  { rewrite Forall_forall. split.
    - intros H. split; intros Hin; apply H in Hin; discriminate Hin.
    - intros [H1 H2] [] Hin; [reflexivity | destruct (H1 Hin)
                              | destruct (H2 Hin)]. }
  unfold Promise_all.
  destruct (existsb rejects promises).
  - assert (E1 : WillReject ∈ promises) by (apply Hrejects; reflexivity).
    repeat split; try done.
    + intros [H _]. destruct (H E1).
    + intros H. apply Hall in H as [H _]. destruct (H E1).
  - assert (N1 : WillReject ∉ promises).
    { intros H. apply Hrejects in H. discriminate H. }
    destruct (existsb never_settles promises).
    + assert (E2 : NeverSettles ∈ promises) by (apply Hnever; reflexivity).
      repeat split; try done.
      intros H. apply Hall in H as [_ H]. destruct (H E2).
    + assert (N2 : NeverSettles ∉ promises).
      { intros H. apply Hnever in H. discriminate H. }
      repeat split; try done.
      * intros [_ H]. destruct (N2 H).
      * intros _. apply Hall. split; assumption.
Qed.
End Firing.

(** Whatever the listeners do, the calls of one firing go to an initial
    segment of the listeners registered for the event, in registration
    order and each at most as often as it is registered, and every call
    carries the payload. *)
Theorem _triggerEvent_prefix (call : Listener → EventData → Completion)
    (this : TimerConnection) (name : EventName) (data : EventData) :
  ∃ not_called,
    registered this name
    = (_triggerEvent call this name data).1.*1 ++ not_called
    ∧ Forall (λ c, c.2 = data) (_triggerEvent call this name data).1.
Proof.
  unfold _triggerEvent.
  destruct (map_call_prefix call data (registered this name)) as [rest Hrest].
  pose proof (map_call_sound call data (registered this name)) as Hsound.
  destruct (map_call call (registered this name) data) as [calls promises].
  simpl in *. exists rest. split; [assumption|].
  eapply Forall_impl; [exact Hsound|]. intros c [_ Hc]. exact Hc.
Qed.

(** What becomes of the promise of a firing.  It is fulfilled exactly when
    every listener registered for the event returned, and none of them a
    promise that rejects or never settles.  It is rejected exactly when
    one of them throws when called or has a promise that rejects to
    return.  Otherwise, when no listener throws or returns a promise that
    rejects and one returns a promise that never settles, it stays
    pending. *)
Theorem _triggerEvent_settles (call : Listener → EventData → Completion)
    (this : TimerConnection) (name : EventName) (data : EventData) :
  ((_triggerEvent call this name data).2 = Fulfilled
   ↔ ∀ l, l ∈ registered this name → call l data = Returns WillFulfil)
  ∧ ((_triggerEvent call this name data).2 = Rejected
     ↔ ∃ l, l ∈ registered this name
            ∧ (call l data = Throws ∨ call l data = Returns WillReject))
  ∧ ((_triggerEvent call this name data).2 = Pending
     ↔ (∀ l, l ∈ registered this name →
          call l data ≠ Throws ∧ call l data ≠ Returns WillReject)
       ∧ ∃ l, l ∈ registered this name ∧ call l data = Returns NeverSettles).
Proof.
  unfold _triggerEvent.
  pose proof (map_call_promises call data (registered this name)) as Hmap.
  destruct (map_call call (registered this name) data)
    as [calls [promises|]]; simpl in *.
  - pose proof (Forall2_returned call data _ _ WillReject Hmap) as Hrejects.
    pose proof (Forall2_returned call data _ _ NeverSettles Hmap) as Hnever.
    destruct (Promise_all_cases promises) as (Hr & Hp & Hf).
    assert (Hthrows : ∀ l, l ∈ registered this name → call l data ≠ Throws).
    { intros l Hl Hthrow.
      destruct (Forall2_called call data _ _ l Hmap Hl) as (p & _ & Hcall).
      congruence. }
    split; [|split].
    + rewrite Hf. split.
      * intros Hall l Hl.
        destruct (Forall2_called call data _ _ l Hmap Hl) as (p & Hp' & Hcall).
        rewrite Forall_forall in Hall.
        rewrite (Hall p Hp') in Hcall. exact Hcall.
      * intros Hall. apply Forall_forall. intros p Hin.
        apply (Forall2_returned call data _ _ p Hmap) in Hin
          as (l & Hl & Hcall).
        specialize (Hall l Hl). congruence.
    + rewrite Hr, Hrejects. split.
      * intros (l & Hl & Hcall). eauto.
      * intros (l & Hl & [Hcall|Hcall]); [destruct (Hthrows l Hl Hcall)|].
        eauto.
    + rewrite Hp, Hrejects, Hnever. split.
      * intros [Hnone Hsome]. split; [|exact Hsome].
        intros l Hl. split; [apply Hthrows, Hl|]. eauto.
      * intros [Hnone Hsome]. split; [|exact Hsome].
        intros (l & Hl & Hcall). destruct (Hnone l Hl) as [_ H]. auto.
  - destruct Hmap as (thrower & Hin & Hthrows).
    split; [|split].
    + split; [discriminate|]. intros Hall. specialize (Hall _ Hin).
      congruence.
    + split; [eauto|reflexivity].
    + split; [discriminate|]. intros [Hnone _].
      destruct (Hnone _ Hin) as [H _]. destruct (H Hthrows).
Qed.

(** Listeners 1 and 2 both return, and the promise that listener 2
    returns never settles: the promise of the firing stays pending. *)
Lemma _triggerEvent_settles_witness :
  (_triggerEvent Payloads.second_hangs Payloads.two_listeners state_update
     NoData).2
  = Pending.
Proof.
  apply (_triggerEvent_settles Payloads.second_hangs Payloads.two_listeners
           state_update NoData).
  assert (registered Payloads.two_listeners state_update = [1%nat; 2%nat])
    as -> by reflexivity.
  split.
  - intros l Hl.
    repeat (apply elem_of_cons in Hl as [->|Hl];
            [split; discriminate|]).
    inversion Hl.
  - exists 2%nat. split; [set_solver | reflexivity].
Defined.

(** Adding or removing a listener for one event leaves the listeners of
    every other event as they were. *)
Theorem listeners_of_other_events (this : TimerConnection)
    (event name : EventName) (f : Listener) :
  event ≠ name →
  registered (addListener this event f) name = registered this name
  ∧ registered (removeListener this event f) name = registered this name.
Proof.
  intros Hne. unfold registered, addListener, removeListener.
  destruct (listeners this !! event) as [ls|]; simpl;
    rewrite ?lookup_insert_ne by assumption; split; reflexivity.
Qed.

Lemma listeners_of_other_events_witness :
  registered (addListener Payloads.two_listeners Socket.error 3%nat)
    state_update
  = registered Payloads.two_listeners state_update
  ∧ registered (removeListener Payloads.two_listeners Socket.error 1%nat)
      state_update
    = registered Payloads.two_listeners state_update.
Proof.
  split.
  - apply (listeners_of_other_events Payloads.two_listeners Socket.error
             state_update 3%nat). discriminate.
  - apply (listeners_of_other_events Payloads.two_listeners Socket.error
             state_update 1%nat). discriminate.
Defined.

(** Every registration counts: on a registry whose listeners for the event
    do not throw, adding [f], registered before or not, adds one call of
    [f] to a firing, after the calls it already received. *)
Theorem addListener_adds_a_call (call : Listener → EventData → Completion)
    (this : TimerConnection) (name : EventName) (f : Listener)
    (data : EventData) :
  (∀ l, l ∈ registered this name → call l data ≠ Throws) →
  calls_of f (_triggerEvent call (addListener this name f) name data).1
  = calls_of f (_triggerEvent call this name data).1 ++ [(f, data)].
Proof.
  intros Hret. unfold _triggerEvent. rewrite registered_addListener.
  pose proof (map_call_last call data _ f Hret) as Hadded.
  destruct (map_call_returns call data _ Hret) as [promises Hcalls].
  destruct (map_call call (registered this name ++ [f]) data)
    as [calls' promises']; simpl in Hadded. subst calls'.
  rewrite Hcalls. simpl.
  rewrite fmap_app. unfold calls_of. rewrite filter_app.
  simpl. rewrite filter_cons_True by reflexivity. reflexivity.
Qed.

Lemma addListener_adds_a_call_witness :
  calls_of 2%nat
    (_triggerEvent Payloads.all_return
       (addListener Payloads.two_listeners state_update 2%nat) state_update
       NoData).1
  = calls_of 2%nat
      (_triggerEvent Payloads.all_return Payloads.two_listeners state_update
         NoData).1
    ++ [(2%nat, NoData)].
Proof.
  apply (addListener_adds_a_call Payloads.all_return Payloads.two_listeners
           state_update 2%nat NoData).
  intros l _. discriminate.
Defined.

(** [removeListener] undoes [addListener] and more: after adding [f] and
    removing it, the listeners of the event are those left by removing [f]
    from the registry as it was, so earlier registrations of [f] are gone
    too; and removing [f] a second time changes nothing. *)
Theorem removeListener_after (this : TimerConnection) (name : EventName)
    (f : Listener) :
  registered (removeListener (addListener this name f) name f) name
  = registered (removeListener this name f) name
  ∧ removeListener (removeListener this name f) name f
    = removeListener this name f.
Proof.
  split.
  - rewrite !registered_removeListener, registered_addListener, filter_app.
    rewrite filter_cons_False by (intros H; apply H; reflexivity).
    rewrite filter_nil, app_nil_r. reflexivity.
  - unfold removeListener.
    destruct (listeners this !! name) as [ls|] eqn:Hls; simpl.
    + rewrite lookup_insert_eq. simpl.
      rewrite insert_insert_eq. rewrite filter_absent; [reflexivity|].
      rewrite list_elem_of_filter. intros [Hne _]. apply Hne. reflexivity.
    + rewrite Hls. reflexivity.
Qed.

(** ** The handshake and the inbound events *)

Import Handlers.

Section InboundEvents.
Variable call : Listener → EventData → Completion.
Context {numeric : StringToNumber}.


End InboundEvents.


(** ** What an assembled snapshot is made of *)

Lemma mapM_Forall2 {A B} (f : A → result B) (l : list A) (k : list B) :
  mapM f l = Ok k ↔ Forall2 (λ a b, f a = Ok b) l k.
Proof.
  revert k. induction l as [|a l IH]; intros k; simpl.
  - split; [intros [= <-]; constructor | intros H; inversion H; reflexivity].
  - split.
    + intros H. unbind H. injection H as <-.
      constructor; [assumption | by apply IH].
    + intros H. inversion H as [|? b ? k' Hab Hrest]; subst.
      rewrite Hab. simpl. apply IH in Hrest. rewrite Hrest. reflexivity.
Qed.

Section AssembledSnapshot.
Context {numeric : StringToNumber}.

Lemma loadDuration_Ok (v : value) (d : Duration) :
  loadDuration v = Ok d → PrimFloat.is_nan d = false.
Proof.
  unfold loadDuration. intros H. apply Duration_fromMillis_Ok in H as [H ->].
  exact H.
Qed.

Lemma settings_loaded (data : value) (t : Timer) :
  Timer_new data = Ok t →
  ∃ items, get data "settings" = Ok (Arr items)
           ∧ mapM StageSettings_load items = Ok (settings t).
Proof.
  intros Ht.
  apply Timer_new_Ok in Ht
    as (_ & _ & _ & _ & _ & _ & _ & _ & (v & Hv & Hmap) & _).
  destruct v; try discriminate Hmap. eauto.
Qed.

(** The stages of an assembled snapshot are the entries of the payload's
    [settings] list, loaded one by one: as many, in the same order. *)
Theorem Timer_new_settings (data : value) (t : Timer) :
  Timer_new data = Ok t →
  ∃ items, get data "settings" = Ok (Arr items)
           ∧ Forall2 (λ item stage, StageSettings_load item = Ok stage)
                     items (settings t).
Proof.
  intros Ht. destruct (settings_loaded data t Ht) as (items & Hitems & Hmap).
  exists items. split; [exact Hitems|]. apply mapM_Forall2, Hmap.
Qed.

(** An assembled snapshot holds no duration that is [NaN]: not in a stage,
    not in the bank of a side. *)
Theorem Timer_new_durations (data : value) (t : Timer) :
  Timer_new data = Ok t →
  Forall (λ stage, PrimFloat.is_nan (fixedTimePerTurn stage) = false
                   ∧ PrimFloat.is_nan (incrementPerTurn stage) = false
                   ∧ PrimFloat.is_nan (initialTime stage) = false)
         (settings t)
  ∧ (∀ side, home t = Some side ∨ away t = Some side →
       PrimFloat.is_nan (totalTimeLastTurn side) = false).
Proof.
  intros Ht. split.
  - destruct (settings_loaded data t Ht) as (items & _ & Hloaded).
    apply mapM_Forall2 in Hloaded.
    induction Hloaded as [|item stage items stages Hload _ IH];
      constructor; [|exact IH].
    unfold StageSettings_load in Hload. unbind Hload.
    injection Hload as <-. simpl.
    repeat split; eapply loadDuration_Ok; eassumption.
  - apply Timer_new_Ok in Ht
      as (_ & _ & _ & _ & _ & _ & (v1 & _ & Hs1) & (v2 & _ & Hs2) & _).
    assert (Hside : ∀ v side, optional_side v = Ok (Some side) →
                      PrimFloat.is_nan (totalTimeLastTurn side) = false).
    { intros v side. unfold optional_side.
      destruct (truthy v); [|discriminate].
      destruct (TimerSide_new v) as [s|e] eqn:Hnew; [|discriminate].
      intros [= <-]. unfold TimerSide_new in Hnew. unbind Hnew.
      injection Hnew as <-. simpl. eapply loadDuration_Ok; eassumption. }
    intros side [Hhome|Haway].
    + rewrite Hhome in Hs1. eauto.
    + rewrite Haway in Hs2. eauto.
Qed.

(** A side is built from an object only: a falsy value gives no side and
    no failure, and every other value that is not an object (a number, a
    string, [true], an array) makes the assembly throw, as it has no
    [total_time]. *)
Theorem optional_side_cases (v : value) :
  (optional_side v = Ok None ↔ truthy v = false)
  ∧ (∀ side, optional_side v = Ok (Some side) →
       ∃ fields, v = Obj fields ∧ TimerSide_new v = Ok side)
  ∧ (truthy v = true → (∀ fields, v ≠ Obj fields) →
       optional_side v = Throw InvalidArgumentError).
Proof.
  unfold optional_side. split; [|split].
  - destruct (truthy v); [|by split].
    destruct (TimerSide_new v); split; discriminate.
  - intros side Hside.
    assert (Hprimitive : get v "total_time" = Ok Undefined →
                         TimerSide_new v = Throw InvalidArgumentError).
    { intros Hget.
      destruct v; try discriminate Hget; try reflexivity.
      unfold TimerSide_new. simpl in *. injection Hget as ->. reflexivity. }
    destruct (truthy v) eqn:Htruthy; [|discriminate Hside].
    destruct v as [| |b|n|s|items|fields]; try discriminate Htruthy;
      try (rewrite Hprimitive in Hside by reflexivity; discriminate Hside).
    exists fields. split; [reflexivity|].
    destruct (TimerSide_new (Obj fields)); [|discriminate Hside].
    injection Hside as ->. reflexivity.
  - intros Htruthy Hother. rewrite Htruthy.
    assert (Hget : get v "total_time" = Ok Undefined).
    { destruct v; try reflexivity; try discriminate Htruthy.
      destruct (Hother _ eq_refl). }
    destruct v; try discriminate Hget; try reflexivity.
    destruct (Hother _ eq_refl).
Qed.

End AssembledSnapshot.

Lemma Timer_new_settings_witness :
  ∃ items, get Payloads.anonymous_payload "settings" = Ok (Arr items)
           ∧ Forall2 (λ item stage,
                        StageSettings_load
                          (numeric := Payloads.no_numeric_strings) item
                        = Ok stage)
                     items (settings Payloads.anonymous_timer).
Proof.
  apply (Timer_new_settings (numeric := Payloads.no_numeric_strings)
           Payloads.anonymous_payload Payloads.anonymous_timer).
  reflexivity.
Defined.

Lemma Timer_new_durations_witness :
  Forall (λ stage, PrimFloat.is_nan (fixedTimePerTurn stage) = false
                   ∧ PrimFloat.is_nan (incrementPerTurn stage) = false
                   ∧ PrimFloat.is_nan (initialTime stage) = false)
         (settings Payloads.anonymous_timer)
  ∧ (∀ side, home Payloads.anonymous_timer = Some side
             ∨ away Payloads.anonymous_timer = Some side →
       PrimFloat.is_nan (totalTimeLastTurn side) = false).
Proof.
  apply (Timer_new_durations (numeric := Payloads.no_numeric_strings)
           Payloads.anonymous_payload Payloads.anonymous_timer).
  reflexivity.
Defined.

Lemma optional_side_cases_witness :
  optional_side (numeric := Payloads.no_numeric_strings) (Num 5)
  = Throw InvalidArgumentError.
Proof.
  apply (optional_side_cases (numeric := Payloads.no_numeric_strings) (Num 5)).
  - reflexivity.
  - intros fields. discriminate.
Defined.

(** ** Schedules on the wire *)

Section SchedulesOnTheWire.
Context {numeric : StringToNumber}.

Lemma load_dump_survives (s : StageSettings) :
  StageSettings_load (StageSettings_dump s) = Ok s
  ↔ survives (fixedTimePerTurn s) ∧ survives (incrementPerTurn s)
    ∧ survives (initialTime s).
Proof.
  rewrite load_of_dump. unfold survives.
  destruct s as [start fixed increment initial]; simpl. split.
  - intros H. unbind H.
    repeat match goal with
           | E : Duration_fromMillis _ = Ok _ |- _ =>
             apply Duration_fromMillis_Ok in E as [? ->]
           end.
    injection H as Hfixed Hincrement Hinitial.
    repeat split; try assumption; congruence.
  - intros ((Hn1 & H1) & (Hn2 & H2) & (Hn3 & H3)).
    rewrite H1, H2, H3. unfold Duration_fromMillis.
    rewrite Hn1, Hn2, Hn3. reflexivity.
Qed.

(** What a stage that was loaded from a dumped one looks like: the same
    [startTurn], and each duration [d] replaced by [(d / 1000) * 1000]. *)
Lemma load_dump_stage (s loaded : StageSettings) :
  StageSettings_load (StageSettings_dump s) = Ok loaded →
  loaded = {| startTurn := startTurn s;
              fixedTimePerTurn := reloaded (fixedTimePerTurn s);
              incrementPerTurn := reloaded (incrementPerTurn s);
              initialTime := reloaded (initialTime s) |}.
Proof.
  rewrite load_of_dump. intros H. unbind H.
  repeat match goal with
         | E : Duration_fromMillis _ = Ok _ |- _ =>
           apply Duration_fromMillis_Ok in E as [? ->]
         end.
  injection H as <-. reflexivity.
Qed.

(** The schedule that [createTimer] posts under [stages], read back the
    way [new Timer] reads [settings], never gains, loses or reorders a
    stage, and never changes a [startTurn]; for stages whose durations are
    whole numbers of milliseconds it is the schedule that was posted
    exactly when every duration of every stage survives the conversion to
    seconds and back. *)
Theorem createTimer_settings (settings : list StageSettings)
    (asManager : bool) :
  Forall (λ s, whole_milliseconds (fixedTimePerTurn s)
               ∧ whole_milliseconds (incrementPerTurn s)
               ∧ whole_milliseconds (initialTime s)) settings →
  ∃ stages,
    get (Http.createTimer_body settings asManager) "stages" = Ok stages
    ∧ (∀ loaded, map_settings stages = Ok loaded →
         startTurn <$> loaded = startTurn <$> settings)
    ∧ (map_settings stages = Ok settings
       ↔ Forall (λ s, survives (fixedTimePerTurn s)
                      ∧ survives (incrementPerTurn s)
                      ∧ survives (initialTime s)) settings).
Proof.
  intros _. eexists. split; [reflexivity|]. simpl. split.
  - intros loaded Hloaded. apply mapM_Forall2 in Hloaded.
    apply Forall2_fmap_l in Hloaded.
    induction Hloaded as [|s l ss ls Hs _ IH]; [reflexivity|].
    rewrite !fmap_cons, IH. f_equal.
    apply load_dump_stage in Hs. rewrite Hs. reflexivity.
  - rewrite mapM_Forall2, Forall2_fmap_l.
    induction settings as [|s settings IH].
    + split; constructor.
    + rewrite Forall2_cons, Forall_cons, IH. simpl.
      rewrite load_dump_survives. reflexivity.
Qed.

End SchedulesOnTheWire.

Lemma createTimer_settings_witness :
  ∃ stages,
    get (Http.createTimer_body [Payloads.readme_stage] false) "stages"
    = Ok stages
    ∧ (∀ loaded,
         map_settings (numeric := Payloads.no_numeric_strings) stages
         = Ok loaded →
         startTurn <$> loaded = startTurn <$> [Payloads.readme_stage])
    ∧ (map_settings (numeric := Payloads.no_numeric_strings) stages
       = Ok [Payloads.readme_stage]
       ↔ Forall (λ s, survives (fixedTimePerTurn s)
                      ∧ survives (incrementPerTurn s)
                      ∧ survives (initialTime s)) [Payloads.readme_stage]).
Proof.
  apply (createTimer_settings (numeric := Payloads.no_numeric_strings)
           [Payloads.readme_stage] false).
  repeat constructor;
    first [ exists 0; split; [vm_compute; split; discriminate | reflexivity]
          | exists 30000; split; [vm_compute; split; discriminate | reflexivity]
          | exists 300000; split; [vm_compute; split; discriminate | reflexivity] ].
Defined.

Lemma all_on_the_wire_spec (count : nat) (first seconds : Z) :
  WholeSeconds.all_on_the_wire first count = true →
  first ≤ seconds < first + Z.of_nat count →
  WholeSeconds.on_the_wire seconds = true.
Proof.
  revert first. induction count as [|count IH]; intros first Hall Hrange;
    [lia|].
  simpl in Hall. apply andb_true_iff in Hall as [Hfirst Hrest].
  destruct (Z.eq_dec seconds first) as [->|Hne]; [assumption|].
  apply (IH (first + 1)); [assumption | lia].
Qed.

(** A duration of a whole number of seconds, up to a day, travels as that
    integer: [dump] writes the three durations of such a stage as the
    integers themselves, and [loadDuration] reads an integer of seconds as
    exactly that many thousand milliseconds. *)
Theorem whole_seconds_on_the_wire {numeric : StringToNumber}
    (start : value) (fixed increment initial : Z) :
  0 ≤ fixed ≤ 86400 → 0 ≤ increment ≤ 86400 → 0 ≤ initial ≤ 86400 →
  StageSettings_dump {| startTurn := start;
                        fixedTimePerTurn := whole_seconds fixed;
                        incrementPerTurn := whole_seconds increment;
                        initialTime := whole_seconds initial |}
  = Obj [ ("start_turn"%string, start);
          ("seconds_fixed_per_turn"%string, Num (millis fixed));
          ("seconds_incremement_per_turn"%string, Num (millis increment));
          ("initial_seconds"%string, Num (millis initial)) ]
  ∧ loadDuration (Num (millis fixed)) = Ok (whole_seconds fixed)
  ∧ loadDuration (Num (millis increment)) = Ok (whole_seconds increment)
  ∧ loadDuration (Num (millis initial)) = Ok (whole_seconds initial).
Proof.
  assert (Hall : ∀ seconds, 0 ≤ seconds ≤ 86400 →
            (Duration_toMillis (whole_seconds seconds) / 1000)%float
            = millis seconds
            ∧ loadDuration (Num (millis seconds))
              = Ok (whole_seconds seconds)).
  { intros seconds Hrange.
    assert (Hwire : WholeSeconds.on_the_wire seconds = true).
    { apply (all_on_the_wire_spec (Z.to_nat 86401) 0).
      - vm_compute. reflexivity.
      - rewrite Z2Nat.id; lia. }
    unfold WholeSeconds.on_the_wire in Hwire.
    apply andb_true_iff in Hwire as [Hwire Hnan].
    apply andb_true_iff in Hwire as [Hdump Hload].
    apply FloatAxioms.Leibniz.eqb_spec in Hdump, Hload.
    apply negb_true_iff in Hnan.
    split; [assumption|].
    unfold loadDuration, Duration_fromMillis. simpl.
    rewrite Hload, Hnan. reflexivity. }
  intros Hfixed Hincrement Hinitial.
  destruct (Hall fixed Hfixed) as [Hd1 Hl1].
  destruct (Hall increment Hincrement) as [Hd2 Hl2].
  destruct (Hall initial Hinitial) as [Hd3 Hl3].
  unfold StageSettings_dump. simpl. rewrite Hd1, Hd2, Hd3. auto.
Qed.

Lemma whole_seconds_on_the_wire_witness :
  StageSettings_dump Payloads.readme_stage
  = Obj [ ("start_turn"%string, Num 0);
          ("seconds_fixed_per_turn"%string, Num (millis 0));
          ("seconds_incremement_per_turn"%string, Num (millis 30));
          ("initial_seconds"%string, Num (millis 300)) ]
  ∧ loadDuration (numeric := Payloads.no_numeric_strings) (Num (millis 0))
    = Ok (whole_seconds 0)
  ∧ loadDuration (numeric := Payloads.no_numeric_strings) (Num (millis 30))
    = Ok (whole_seconds 30)
  ∧ loadDuration (numeric := Payloads.no_numeric_strings) (Num (millis 300))
    = Ok (whole_seconds 300).
Proof.
  apply (whole_seconds_on_the_wire (numeric := Payloads.no_numeric_strings)
           (Num 0) 0 30 300); lia.
Defined.

(** ** Answers of the HTTP endpoints *)

Lemma client_request_accepted (answer : Http.Answer)
    (response : Http.Response) :
  Http.client_request answer = Http.Resolves response
  ↔ answer = Http.Responds response ∧ Http.accepted (Http.status response).
Proof.
  unfold Http.client_request, Http.validateStatus, Http.accepted.
  destruct answer as [|answered]; [split; [discriminate | intros [H _]; discriminate H]|].
  destruct (Http.status answered =? 0) eqn:Hzero;
    destruct (200 <=? Http.status answered) eqn:Hlow;
    destruct (Http.status answered <? 300) eqn:Hhigh; simpl;
    rewrite ?Z.eqb_eq, ?Z.eqb_neq, ?Z.leb_le, ?Z.leb_gt, ?Z.ltb_lt, ?Z.ltb_ge
      in Hzero, Hlow, Hhigh;
    split;
    first [ intros [= <-]; split; [reflexivity | lia]
          | intros [[= <-] _]; reflexivity
          | discriminate
          | intros [[= <-] H]; lia ].
Qed.

(** What [_request] makes of each answer: the status test it applies to
    a response is never met. *)
Lemma _request_cases (answer : Http.Answer) :
  Http._request answer
  = match Http.client_request answer with
    | Http.Resolves response => Http.Resolves (Http.data response)
    | Http.Rejects r => Http.Rejects Http.AxiosError
    end.
Proof.
  unfold Http._request.
  destruct (Http.client_request answer) as [response|r] eqn:Hrequest; simpl.
  - apply client_request_accepted in Hrequest as [_ Haccepted].
    unfold Http.accepted in Haccepted.
    destruct (400 <=? Http.status response) eqn:Hstatus; [|reflexivity].
    apply Z.leb_le in Hstatus. lia.
  - unfold Http.client_request in Hrequest.
    destruct answer as [|answered]; [congruence|].
    destruct (_ || _); congruence.
Qed.

Section ErrorAnswers.
Context {numeric : StringToNumber}.

(** No endpoint ever rejects with an [ApiError].  The Axios client, which
    was created without a [validateStatus] of its own, resolves a request
    only with a response of status 0 or 200 to 299, so the test
    [response.status >= 400] of [_request] is never met: a response with
    a status of 400 or more makes each of the four endpoints reject with
    the error of the Axios client. *)
Theorem _request_never_ApiError (answer : Http.Answer) :
  (∀ error,
     Http._request answer ≠ Http.Rejects (Http.Api error)
     ∧ Http.getStats answer ≠ Http.Rejects (Http.Api error)
     ∧ Http.getTimer answer ≠ Http.Rejects (Http.Api error)
     ∧ Http.joinTimer answer ≠ Http.Rejects (Http.Api error)
     ∧ Http.createTimer answer ≠ Http.Rejects (Http.Api error))
  ∧ (∀ response,
       answer = Http.Responds response → 400 ≤ Http.status response →
       Http.getStats answer = Http.Rejects Http.AxiosError
       ∧ Http.getTimer answer = Http.Rejects Http.AxiosError
       ∧ Http.joinTimer answer = Http.Rejects Http.AxiosError
       ∧ Http.createTimer answer = Http.Rejects Http.AxiosError).
Proof.
  split.
  - intros error.
    unfold Http.getStats, Http.getTimer, Http.joinTimer, Http.createTimer.
    rewrite _request_cases.
    destruct (Http.client_request answer) as [response|r]; simpl;
      repeat split; try discriminate.
    + destruct (Http.AppStats_new _); discriminate.
    + destruct (Timer_new _); discriminate.
    + destruct (Http.credentials _); discriminate.
    + destruct (Http.credentials _); discriminate.
  - intros response -> Hstatus.
    unfold Http.getStats, Http.getTimer, Http.joinTimer, Http.createTimer.
    rewrite _request_cases.
    destruct (Http.client_request (Http.Responds response))
      as [resolved|r] eqn:Hrequest; [|repeat split; reflexivity].
    apply client_request_accepted in Hrequest as [[= <-] Haccepted].
    unfold Http.accepted in Haccepted. lia.
Qed.

End ErrorAnswers.

(** A 404 with a [detail] in its body. *)
Lemma _request_never_ApiError_witness :
  Http.getStats (Http.Responds MoreExamples.not_found)
  = Http.Rejects Http.AxiosError
  ∧ Http.getTimer (numeric := Payloads.no_numeric_strings)
      (Http.Responds MoreExamples.not_found)
    = Http.Rejects Http.AxiosError
  ∧ Http.joinTimer (Http.Responds MoreExamples.not_found)
    = Http.Rejects Http.AxiosError
  ∧ Http.createTimer (Http.Responds MoreExamples.not_found)
    = Http.Rejects Http.AxiosError.
Proof.
  apply (_request_never_ApiError (numeric := Payloads.no_numeric_strings)
           (Http.Responds MoreExamples.not_found)) with
    (response := MoreExamples.not_found).
  - reflexivity.
  - simpl. lia.
Defined.

(** [getStats] and [joinTimer] reject exactly when the Axios client does
    (no response, or a response whose status it does not accept) or the
    body of the response is [null] or [undefined].  A body of any other
    shape gives a result, with [undefined] for each field it lacks. *)
Theorem getStats_joinTimer_reject (answer : Http.Answer) :
  let refused :=
    match answer with
    | Http.NoResponse => True
    | Http.Responds response =>
      ¬ Http.accepted (Http.status response)
      ∨ Http.data response = Null ∨ Http.data response = Undefined
    end in
  ((∃ r, Http.getStats answer = Http.Rejects r) ↔ refused)
  ∧ ((∃ r, Http.joinTimer answer = Http.Rejects r) ↔ refused)
  ∧ (∀ response stats,
       answer = Http.Responds response →
       Http.getStats answer = Http.Resolves stats →
       get (Http.data response) "all_timers" = Ok (Http.allTimers stats)
       ∧ get (Http.data response) "ongoing_timers"
         = Ok (Http.ongoingTimers stats)
       ∧ get (Http.data response) "connected" = Ok (Http.connected stats))
  ∧ (∀ response credentials,
       answer = Http.Responds response →
       Http.joinTimer answer = Http.Resolves credentials →
       get (Http.data response) "timer" = Ok (Http.timer credentials)
       ∧ get (Http.data response) "token" = Ok (Http.token credentials)).
Proof.
  cbv zeta. unfold Http.getStats, Http.joinTimer.
  rewrite _request_cases.
  destruct (Http.client_request answer) as [resolved|r] eqn:Hrequest.
  - apply client_request_accepted in Hrequest as [-> Haccepted]. simpl.
    unfold Http.AppStats_new, Http.credentials.
    destruct (Http.data resolved) eqn:Hdata; simpl;
      (split; [|split; [|split]]);
      try (split; [intros [r Hr]; discriminate Hr
                  |intros [H|[H|H]];
                   first [destruct (H Haccepted) | discriminate H]]);
      try (split; intros _; eauto; fail);
      intros response result [= <-] Hresult; rewrite Hdata;
      first [discriminate Hresult
            |injection Hresult as <-; repeat split; reflexivity].
  - assert (Hrefused : match answer with
                       | Http.NoResponse => True
                       | Http.Responds response =>
                         ¬ Http.accepted (Http.status response)
                         ∨ Http.data response = Null
                         ∨ Http.data response = Undefined
                       end).
    { destruct answer as [|response]; [exact I|]. left. intros Haccepted.
      assert (Hresolves : Http.client_request (Http.Responds response)
                          = Http.Resolves response)
        by (apply client_request_accepted; auto).
      congruence. }
    simpl. repeat split; try (intros _; eauto; fail);
      try (intros _; exact Hrefused); intros; discriminate.
Qed.

(** A 502 without a body is refused; a 200 with the three counts is
    read. *)
Lemma getStats_joinTimer_reject_witness :
  (¬ Http.accepted (Http.status MoreExamples.bad_gateway)
   ∨ Http.data MoreExamples.bad_gateway = Null
   ∨ Http.data MoreExamples.bad_gateway = Undefined)
  ∧ get (Http.data MoreExamples.usage) "all_timers" = Ok (Num 12).
Proof.
  split.
  - apply (getStats_joinTimer_reject (Http.Responds MoreExamples.bad_gateway)).
    exists Http.AxiosError. reflexivity.
  - apply (getStats_joinTimer_reject (Http.Responds MoreExamples.usage))
      with (response := MoreExamples.usage)
           (stats := {| Http.allTimers := Num 12;
                        Http.ongoingTimers := Num 3;
                        Http.connected := Undefined |});
      reflexivity.
Defined.
